(** * OSD Lyrics: the lyrics resolution and persistence engine

  A shallow embedding of [daemon/lyrics.py] and of [path2uri] from
  [python/utils.py], with the properties of the design document proved
  (or refuted) over it.

  Conventions.
  - A Python [str] is a [string]; non-ASCII text is carried as its UTF-8
    code units, which is transparent to every function below because all
    the characters the code inspects are ASCII.
  - A Python [bytes] is a [list byte].
  - Code that can raise returns a [result], library calls included where
    the code lets their exception through; code that touches the
    filesystem or the service object threads the state explicitly. *)

From Stdlib Require Import Bool Arith Lia List ZArith.
From Stdlib Require Import Strings.Ascii Strings.String Strings.Byte.
From Stdlib Require Import Decimal DecimalString DecimalPos DecimalZ.
Import ListNotations.

Local Open Scope string_scope.
Local Open Scope bool_scope.

(* ================================================================== *)
(** ** Python string primitives *)

Module PyStr.

(** The newline character ['\n'] and the NUL character ['\0']. *)
Definition nl : ascii := "010"%char.
Definition nul : ascii := "000"%char.

(** [s[:n]] *)
Fixpoint take (n : nat) (s : string) : string :=
  match n, s with
  | S n', String c s' => String c (take n' s')
  | _, _ => EmptyString
  end.

(** [s[n:]] *)
Fixpoint drop (n : nat) (s : string) : string :=
  match n, s with
  | S n', String _ s' => drop n' s'
  | _, _ => s
  end.

(** [s.startswith(p)], returning what follows the prefix. *)
Fixpoint strip_prefix (p s : string) : option string :=
  match p, s with
  | EmptyString, _ => Some s
  | String a p', String b s' =>
      if (a =? b)%char then strip_prefix p' s' else None
  | String _ _, EmptyString => None
  end.

Definition startswith (s p : string) : bool :=
  match strip_prefix p s with Some _ => true | None => false end.

(** [c in s] for a single character. *)
Fixpoint mem (c : ascii) (s : string) : bool :=
  match s with
  | EmptyString => false
  | String a s' => (a =? c)%char || mem c s'
  end.

(** [s.replace(c, '')] for a single character [c]. *)
Fixpoint remove (c : ascii) (s : string) : string :=
  match s with
  | EmptyString => EmptyString
  | String a s' =>
      if (a =? c)%char then remove c s' else String a (remove c s')
  end.

(** [str(z)] / ['%s' % z] for an integer. *)
Definition str_of_int (z : Z) : string :=
  NilZero.string_of_int (Z.to_int z).

(** ASCII lower-casing, [s.lower()] on the encoding names it is used on. *)
Definition lower_char (c : ascii) : ascii :=
  let n := nat_of_ascii c in
  if ((65 <=? n) && (n <=? 90))%nat then ascii_of_nat (n + 32) else c.

Fixpoint lower (s : string) : string :=
  match s with
  | EmptyString => EmptyString
  | String c s' => String (lower_char c) (lower s')
  end.

End PyStr.

(* ================================================================== *)
(** ** Offset rewriter: [update_lrc_offset] *)

Module OffsetRewriter.
Import PyStr.

(** The pattern of [update_lrc_offset] is
    [^(\[[^\]]*\])*?\[offset:(.*?)\]] with [re.MULTILINE].  The matcher
    below follows the backtracking order of [re.search] piece by piece;
    all it reports is the span of group 2. *)

(** [(.*?)\]]: the lazy value first tries the closing bracket, and
    otherwise extends over one more character, which [.] forbids to be a
    newline.  Returns the length of group 2. *)
Fixpoint lazy_value (s : string) : option nat :=
  match s with
  | EmptyString => None
  | String c s' =>
      if (c =? "]")%char then Some 0
      else if (c =? nl)%char then None
      else option_map S (lazy_value s')
  end.

(** [\[offset:(.*?)\]] at the head of [s]: the span of group 2,
    relative to [s]. *)
Definition offset_tag (s : string) : option (nat * nat) :=
  match strip_prefix "[offset:" s with
  | Some rest => option_map (fun n => (8, 8 + n)) (lazy_value rest)
  | None => None
  end.

Definition shift (k : nat) (r : option (nat * nat)) : option (nat * nat) :=
  option_map (fun '(a, b) => (k + a, k + b)) r.

(** [(\[[^\]]*\])*?\[offset:(.*?)\]].  With [in_tag = false] the matcher
    stands between two tags: the lazy star first tries the offset tag
    and, when that fails, opens one more [\[[^\]]*\]].  With
    [in_tag = true] it is inside [[^\]]*\]], which runs (over newlines
    too) to the first closing bracket. *)
Fixpoint tag_run (in_tag : bool) (s : string) : option (nat * nat) :=
  if in_tag then
    match s with
    | EmptyString => None
    | String c s' => shift 1 (tag_run (negb (c =? "]")%char) s')
    end
  else
    match offset_tag s with
    | Some span => Some span
    | None =>
        match s with
        | EmptyString => None
        | String c s' =>
            if (c =? "[")%char then shift 1 (tag_run true s') else None
        end
    end.

(** [re.search]: the start positions are tried from left to right;
    [^] under [re.MULTILINE] holds at position 0 and after each newline. *)
Fixpoint search_from (bol : bool) (s : string) : option (nat * nat) :=
  match (if bol then tag_run false s else None) with
  | Some span => Some span
  | None =>
      match s with
      | EmptyString => None
      | String c s' => shift 1 (search_from (c =? nl)%char s')
      end
  end.

(** [(search_result.start(2), search_result.end(2))], or [None]. *)
Definition re_search_offset (content : string) : option (nat * nat) :=
  search_from true content.

Definition update_lrc_offset (content : string) (offset : Z) : string :=
  match re_search_offset content with
  | None => "[offset:" ++ str_of_int offset ++ "]" ++ String nl content
  | Some (start2, end2) =>
      take start2 content ++ str_of_int offset ++ drop end2 content
  end.

End OffsetRewriter.

(** What the design document says the pattern looks for, stated without
  reference to the matcher: a line start, a run of bracketed tags, and an
  offset tag whose value stays on its line. *)
Module OffsetSpec.
Import PyStr.

(** The characters group 2 can capture: anything but a closing bracket
    (the value is lazy) and a newline ([.] without [re.DOTALL]). *)
Fixpoint clean (v : string) : bool :=
  match v with
  | EmptyString => true
  | String c v' => negb (c =? "]")%char && negb (c =? nl)%char && clean v'
  end.

(** [(\[[^\]]*\])*]: bracketed tags stacked with no separator. *)
Inductive bracket_tags : string -> Prop :=
| bt_nil : bracket_tags ""
| bt_cons (body rest : string) :
    mem "]" body = false ->
    bracket_tags rest ->
    bracket_tags (String "[" (body ++ String "]" rest)).

(** [before] ends where a line starts; [bol] says whether the position
    before [before] is itself a line start. *)
Definition line_start_from (bol : bool) (before : string) : Prop :=
  (before = "" /\ bol = true) \/ exists b, before = b ++ String nl "".

Definition line_start : string -> Prop := line_start_from true.

(** What the matcher has consumed when it reaches an offset tag: whole
    tags when it stands between tags; the rest of a tag body, its closing
    bracket and whole tags when it started inside a tag. *)
Definition run_shape (in_tag : bool) (pre : string) : Prop :=
  if in_tag
  then exists body tags,
      pre = body ++ String "]" tags
      /\ mem "]" body = false /\ bracket_tags tags
  else bracket_tags pre.

(** [s] holds an offset tag after [pre]; [a] and [e] delimit its value. *)
Definition found_at (s : string) (a e : nat) (pre v rest : string) : Prop :=
  s = pre ++ "[offset:" ++ v ++ String "]" rest
  /\ a = length pre + 8 /\ e = a + length v /\ clean v = true.

(** A line-anchored run of bracketed tags immediately followed by an
    [[offset:...]] tag occurs in [content]. *)
Definition anchored_offset_tag (content : string) : Prop :=
  exists before tags value rest,
    content = before ++ tags ++ "[offset:" ++ value ++ String "]" rest
    /\ line_start before
    /\ bracket_tags tags
    /\ mem nl value = false.

(** Some line of [s] begins with an opening bracket; [bol] says whether
    [s] itself begins where a line starts. *)
Fixpoint bracket_at_line_start (bol : bool) (s : string) : bool :=
  match s with
  | EmptyString => false
  | String c s' =>
      (bol && (c =? "[")%char) || bracket_at_line_start (c =? nl)%char s'
  end.

End OffsetSpec.


(* ================================================================== *)
(** ** Exceptions *)

(** The exception classes of [lyrics.py], the two built-in exceptions its
    own expressions raise ([KeyError] from the scheme dispatch tables and
    [TypeError] from [str + None]), and the built-in exceptions of the
    library calls it makes: [ValueError] from [urlparse] on a malformed
    network location and from [open] and [os.makedirs] on a path with an
    embedded NUL, [LookupError] from [bytes.decode] on a codec name Python
    does not know, and [OSError] (of which [IOError] is an alias) from the
    filesystem.  A [PatternException] never leaves the two loops that
    catch it; it is a result of the expander, not an exception here. *)
Inductive exn : Type :=
| InvalidUriException (uri : string)
| CannotLoadLrcException (uri : string)
| CannotSaveLrcException (uri : string)
| KeyError (key : string)
| TypeError
| ValueError
| LookupError
| OSError.

Inductive result (A : Type) : Type :=
| Ret (a : A)
| Raise (e : exn).

Arguments Ret {A} a.
Arguments Raise {A} e.

Definition bind {A B : Type} (r : result A) (k : A -> result B) : result B :=
  match r with
  | Ret a => k a
  | Raise e => Raise e
  end.

Notation "x <- r ;; k" := (bind r (fun x => k))
  (at level 61, r at next level, right associativity).

(** Python truthiness of a value that is [None] or a [str]. *)
Definition truthy (v : option string) : bool :=
  match v with
  | Some (String _ _) => true
  | _ => false
  end.

(* ================================================================== *)
(** ** [os.path] (POSIX) *)

Module OsPath.
Import PyStr.

(** [s.rstrip(c)] *)
Fixpoint rstrip (c : ascii) (s : string) : string :=
  match s with
  | EmptyString => EmptyString
  | String a s' =>
      match rstrip c s' with
      | EmptyString => if (a =? c)%char then EmptyString else String a EmptyString
      | r => String a r
      end
  end.

Definition isabs (p : string) : bool := startswith p "/".

(** [s.endswith(c)] *)
Fixpoint endswith_char (s : string) (c : ascii) : bool :=
  match s with
  | EmptyString => false
  | String a EmptyString => (a =? c)%char
  | String _ s' => endswith_char s' c
  end.

(** [os.path.join(a, b)] *)
Definition join (a b : string) : string :=
  if startswith b "/" then b
  else if (a =? "")%string || endswith_char a "/" then a ++ b
  else a ++ "/" ++ b.

(** [p[:p.rfind('/') + 1]] *)
Fixpoint head_part (p : string) : string :=
  match p with
  | EmptyString => EmptyString
  | String c p' => if mem "/" p then String c (head_part p') else EmptyString
  end.

(** [os.path.dirname(p)] *)
Definition dirname (p : string) : string :=
  let head := head_part p in
  match rstrip "/" head with
  | EmptyString => head
  | r => r
  end.

(** [path[1:i]] and [path[i:]] for [i] the first slash, given [path[1:]]. *)
Fixpoint split_user (tail : string) : string * string :=
  match tail with
  | EmptyString => (EmptyString, EmptyString)
  | String c t =>
      if (c =? "/")%char then (EmptyString, tail)
      else let '(name, rest) := split_user t in (String c name, rest)
  end.

End OsPath.

(* ================================================================== *)
(** ** External collaborators *)

(** Modelled from the spec: the track metadata of [osdlyrics.metadata],
    which is not part of the sources at hand; the design document takes it
    to be an immutable, value-comparable record with at least title and
    artist fields. *)
Record Metadata : Type := {
  title : option string;
  artist : option string;
  album : option string;
  location : option string
}.

Definition option_eqb (a b : option string) : bool :=
  match a, b with
  | Some x, Some y => (x =? y)%string
  | None, None => true
  | _, _ => false
  end.

(** [metadata == other] *)
Definition Metadata_eqb (m n : Metadata) : bool :=
  option_eqb (title m) (title n) && option_eqb (artist m) (artist n)
  && option_eqb (album m) (album n) && option_eqb (location m) (location n).

(** Modelled from the spec: the association store of [lrcdb.LrcDb], which
    is not part of the sources at hand; the design document gives it as a
    key-to-URI mapping keyed by track metadata with lookup, insert and
    delete.  [find] yields [None] when nothing is recorded and the empty
    string when the record says that the track has no lyrics. *)
Module LrcDb.

Definition t : Type := Metadata -> option string.

Definition find (db : t) (metadata : Metadata) : option string := db metadata.

Definition assign (db : t) (metadata : Metadata) (uri : string) : t :=
  fun m => if Metadata_eqb m metadata then Some uri else db m.

Definition delete (db : t) (metadata : Metadata) : t :=
  fun m => if Metadata_eqb m metadata then None else db m.

End LrcDb.

(** How a call into the filesystem ends: it returns, it raises [OSError]
    (the class the code catches as [IOError] or [OSError]), or it raises
    [ValueError], which [open] and [os.makedirs] do on a path with an
    embedded NUL and which the code does not catch. *)
Inductive outcome (A : Type) : Type :=
| Done (a : A)
| FailsOSError
| FailsValueError.

Arguments Done {A} a.
Arguments FailsOSError {A}.
Arguments FailsValueError {A}.

(** What the engine calls but does not define: the charset detector and
    the codecs, the parts of [urllib] that rest on [ipaddress] and
    [unicodedata], the URL quoting of [urllib], the user database behind
    [os.path.expanduser], the filesystem, the pattern expander and the
    configuration provider. *)
Class Platform : Type := {
  (** [chardet.detect(content)['encoding']] *)
  chardet_detect : list byte -> option string;
  (** [content.decode(encoding, 'replace')]; [None] is the [LookupError]
      of a codec name Python does not know. *)
  bytes_decode : string -> list byte -> option string;
  (** The empty byte string decodes to the empty text under every name:
      CPython returns it before it looks the codec up. *)
  bytes_decode_empty : forall encoding, bytes_decode encoding [] = Some "";
  (** [urllib.parse._check_bracketed_netloc(netloc)], which validates an
      IP literal in brackets with [ipaddress]: [true] when it returns,
      [false] when it raises [ValueError]. *)
  check_bracketed_netloc : string -> bool;
  (** [unicodedata.normalize('NFKC', s)] *)
  unicodedata_normalize_NFKC : string -> string;
  (** [urllib.request.url2pathname] and [pathname2url] *)
  url2pathname : string -> string;
  pathname2url : string -> string;
  (** The home directory [expanduser] finds for a user name, the empty
      name standing for the current user; [None] when there is none. *)
  userhome : string -> option string;
  (** The filesystem.  [fs_read] is [open(path, 'rb')] followed by
      [read()]; [fs_open_wb] is [open(path, 'wb')] and gives the state in
      which the file exists and is empty; [fs_write] is [file.write] on
      the file so opened; [fs_makedirs] is [os.makedirs].  A call that
      changes the state hands back the state it leaves, also when it
      fails: directories made before [os.makedirs] fails, bytes written
      before [write] fails. *)
  FS : Type;
  fs_read : string -> FS -> outcome (list byte);
  fs_isfile : string -> FS -> bool;
  fs_isdir : string -> FS -> bool;
  fs_makedirs : string -> FS -> outcome unit * FS;
  fs_open_wb : string -> FS -> outcome FS;
  fs_write : string -> list byte -> FS -> outcome unit * FS;
  (** [osdlyrics.pattern]; [None] is a [PatternException]. *)
  expand_path : string -> Metadata -> option string;
  expand_file : string -> Metadata -> option string;
  (** [Config.get_string_list(key, default)] *)
  config_get_string_list : string -> list string -> list string
}.

(* ================================================================== *)
(** ** [urllib.parse.urlparse] *)

(** CPython's [urlsplit] and [urlparse] on a [str], as of 3.11: leading
    control characters and spaces are stripped, tabs and line breaks are
    deleted, and a malformed network location raises [ValueError]. *)
Module Urllib.
Import PyStr.

Record ParseResult : Type := {
  scheme : string;
  netloc : string;
  path : string;
  params : string;
  query : string;
  fragment : string
}.

Definition in_range (lo hi : nat) (c : ascii) : bool :=
  let n := nat_of_ascii c in ((lo <=? n) && (n <=? hi))%nat.

Definition is_alpha (c : ascii) : bool := in_range 65 90 c || in_range 97 122 c.

(** [scheme_chars]: letters, digits and ["+-."]. *)
Definition scheme_char (c : ascii) : bool :=
  is_alpha c || in_range 48 57 c || mem c "+-.".

Fixpoint all_chars (f : ascii -> bool) (s : string) : bool :=
  match s with
  | EmptyString => true
  | String c s' => f c && all_chars f s'
  end.

(** [s.isascii()] *)
Definition isascii (s : string) : bool := all_chars (in_range 0 127) s.

(** [uses_params] *)
Definition uses_params : list string :=
  [""; "ftp"; "hdl"; "prospero"; "http"; "imap"; "https"; "shttp"; "rtsp";
   "rtspu"; "sip"; "sips"; "mms"; "sftp"; "tel"].

(** [s.split(sep, 1)] when a character of [seps] occurs in [s]: the text
    before the first one, that character, and the text after it. *)
Fixpoint split_first (seps : string) (s : string)
  : option (string * ascii * string) :=
  match s with
  | EmptyString => None
  | String c s' =>
      if mem c seps then Some (EmptyString, c, s')
      else match split_first seps s' with
           | Some (a, d, b) => Some (String c a, d, b)
           | None => None
           end
  end.

(** [url.lstrip(_WHATWG_C0_CONTROL_OR_SPACE)]: the characters up to and
    including the space are dropped from the left. *)
Fixpoint lstrip_c0 (url : string) : string :=
  match url with
  | EmptyString => EmptyString
  | String c url' => if in_range 0 32 c then lstrip_c0 url' else url
  end.

(** [_UNSAFE_URL_BYTES_TO_REMOVE]: tab, carriage return and newline are
    deleted wherever they stand. *)
Definition remove_unsafe (url : string) : string :=
  remove "010" (remove "013" (remove "009" url)).

(** [i = url.find(':')]; a non-empty, well-formed [url[:i]] is the scheme. *)
Definition split_scheme (url : string) : string * string :=
  match split_first ":" url with
  | Some (String c0 h, _, rest) =>
      if is_alpha c0 && all_chars scheme_char (String c0 h)
      then (lower (String c0 h), rest)
      else (EmptyString, url)
  | _ => (EmptyString, url)
  end.

(** [_splitnetloc(url, 2)] for a [url] that begins with ["//"]. *)
Definition split_netloc (url : string) : string * string :=
  match url with
  | String "/" (String "/" r) =>
      match split_first "/?#" r with
      | Some (n, d, rest) => (n, String d rest)
      | None => (r, EmptyString)
      end
  | _ => (EmptyString, url)
  end.

(** One of ['['] and [']'] occurs in the network location and the other
    does not. *)
Definition unbalanced_brackets (netloc : string) : bool :=
  (mem "[" netloc && negb (mem "]" netloc))
  || (mem "]" netloc && negb (mem "[" netloc)).

(** [url[url.rfind('/'):]], the whole of [url] when it holds no slash. *)
Fixpoint last_segment (url : string) : string :=
  match url with
  | EmptyString => EmptyString
  | String c url' => if mem "/" url' then last_segment url' else url
  end.

(** [_splitparams(url)], for a [url] that holds a [';']. *)
Definition _splitparams (url : string) : string * string :=
  let segment := last_segment url in
  match split_first ";" segment with
  | Some (a, _, b) => (take (length url - length segment) url ++ a, b)
  | None => (url, EmptyString)
  end.

Section WithPlatform.
Context {P : Platform}.

(** [_checknetloc(netloc)] *)
Definition _checknetloc (netloc : string) : result unit :=
  if (netloc =? "")%string || isascii netloc then Ret tt
  else
    let n := remove "?" (remove "#" (remove ":" (remove "@" netloc))) in
    let netloc2 := unicodedata_normalize_NFKC n in
    if (n =? netloc2)%string then Ret tt
    else if mem "/" netloc2 || mem "?" netloc2 || mem "#" netloc2
            || mem "@" netloc2 || mem ":" netloc2
    then Raise ValueError
    else Ret tt.

Definition urlsplit (url : string) : result ParseResult :=
  let url := lstrip_c0 url in
  let url := remove_unsafe url in
  let '(sch, url) := split_scheme url in
  let '(net, url) := split_netloc url in
  _ <- (if unbalanced_brackets net then Raise ValueError
        else if mem "[" net && mem "]" net
                && negb (check_bracketed_netloc net)
        then Raise ValueError
        else Ret tt) ;;
  let '(url, frag) :=
    match split_first "#" url with
    | Some (a, _, b) => (a, b)
    | None => (url, EmptyString)
    end in
  let '(url, qry) :=
    match split_first "?" url with
    | Some (a, _, b) => (a, b)
    | None => (url, EmptyString)
    end in
  _ <- _checknetloc net ;;
  Ret {| scheme := sch; netloc := net; path := url; params := EmptyString;
         query := qry; fragment := frag |}.

Definition urlparse (url : string) : result ParseResult :=
  splitresult <- urlsplit url ;;
  if existsb (String.eqb (scheme splitresult)) uses_params
     && mem ";" (path splitresult)
  then
    let '(url, params) := _splitparams (path splitresult) in
    Ret {| scheme := scheme splitresult; netloc := netloc splitresult;
           path := url; params := params;
           query := query splitresult; fragment := fragment splitresult |}
  else Ret splitresult.

End WithPlatform.
End Urllib.

(* ================================================================== *)
(** ** [osdlyrics.utils] *)

Module Utils.
Import PyStr OsPath.

Section WithPlatform.
Context {P : Platform}.

(** [os.path.expanduser(path)] *)
Definition expanduser (path : string) : string :=
  match path with
  | String c tail =>
      if (c =? "~")%char then
        let '(name, rest) := split_user tail in
        match userhome name with
        | None => path
        | Some home =>
            match rstrip "/" home ++ rest with
            | EmptyString => "/"
            | expanded => expanded
            end
        end
      else path
  | EmptyString => path
  end.

Definition path2uri (path : string) : string :=
  let path := expanduser path in
  if negb (isabs path) then path
  else "file://" ++ pathname2url path.

End WithPlatform.
End Utils.

(* ================================================================== *)
(** ** [daemon/lyrics.py] *)

Module Lyrics.
Import PyStr OsPath Urllib Utils OffsetRewriter.

Definition DEFAULT_FILE_PATTERNS : list string := ["%p-%t"; "%t-%p"; "%f"; "%t"].

Definition DEFAULT_PATH_PATTERNS : list string := ["~/.lyrics"; "%"].

Definition SUPPORTED_SCHEMES : list string := ["file"; "none"].

Definition DETECT_CHARSET_GUESS_MIN_LEN : nat := 40.
Definition DETECT_CHARSET_GUESS_MAX_LEN : nat := 100.

(** [b'\0'], and [content.rstrip(b'\0')] *)
Definition is_nul_byte (b : byte) : bool := Byte.eqb b x00.

Fixpoint rstrip_nul (content : list byte) : list byte :=
  match content with
  | [] => []
  | b :: rest =>
      match rstrip_nul rest with
      | [] => if is_nul_byte b then [] else [b]
      | r => b :: r
      end
  end.

(** [text.encode('utf-8')]: the text already is its UTF-8 code units. *)
Definition encode_utf8 (text : string) : list byte := list_byte_of_string text.

Definition is_valid_uri (uri : string) : bool :=
  existsb (fun scheme => startswith uri (scheme ++ ":")) SUPPORTED_SCHEMES.

(** [content[:slice_end]], the slice [decode_by_charset] retries the
    detection on. *)
Definition retry_slice (content : list byte) : list byte :=
  firstn (Nat.min (Nat.max DETECT_CHARSET_GUESS_MIN_LEN
                     (List.length content / 2))
            DETECT_CHARSET_GUESS_MAX_LEN) content.

(** The codec name [decode_by_charset] decodes with, given what the
    detection has left in [encoding] (lines 117 to 132). *)
Definition codec_name (encoding : option string) : string :=
  let encoding :=
    match encoding with
    | Some (String c e) => String c e
    | _ => "utf-8"
    end in
  let encoding := lower encoding in
  if (encoding =? "ascii")%string then "utf-8"
  else if (encoding =? "gb2312")%string || (encoding =? "gbk")%string
       then "gb18030"
  else if (encoding =? "big5")%string then "big5hkscs"
  else encoding.

Section WithPlatform.
Context {P : Platform}.

(** What the detection leaves in [encoding] (lines 106 to 115): the
    answer of the detector for the whole content, or its answer for the
    retry slice when the first one is empty and the content is longer
    than 40 bytes. *)
Definition detected_encoding (content : list byte) : option string :=
  if negb (truthy (chardet_detect content))
     && (DETECT_CHARSET_GUESS_MIN_LEN <? List.length content)%nat
  then chardet_detect (retry_slice content)
  else chardet_detect content.

Definition decode_by_charset (content : list byte) : result string :=
  let encoding := chardet_detect content in
  encoding <-
    (if negb (truthy encoding)
        && (DETECT_CHARSET_GUESS_MIN_LEN <? List.length content)%nat
     then
       let content_half := (List.length content / 2)%nat in
       let slice_end :=
         Nat.min (Nat.max DETECT_CHARSET_GUESS_MIN_LEN content_half)
                 DETECT_CHARSET_GUESS_MAX_LEN in
       let encoding := chardet_detect (firstn slice_end content) in
       (* ['guess encoding from part: ' + encoding] *)
       match encoding with
       | None => Raise TypeError
       | Some _ => Ret encoding
       end
     else Ret encoding) ;;
  let encoding :=
    match encoding with
    | Some (String c e) => String c e
    | _ => "utf-8"
    end in
  let encoding := lower encoding in
  let encoding :=
    if (encoding =? "ascii")%string then "utf-8"
    else if (encoding =? "gb2312")%string || (encoding =? "gbk")%string
         then "gb18030"
    else if (encoding =? "big5")%string then "big5hkscs"
    else encoding in
  match bytes_decode encoding content with
  | Some text => Ret text
  | None => Raise LookupError
  end.

Definition ensure_uri_scheme (uri : option string)
  : result (option string) :=
  match uri with
  | Some (String c u) =>
      url_parts <- urlparse (String c u) ;;
      if (scheme url_parts =? "")%string
      then Ret (Some (path2uri (String c u)))
      else Ret uri
  | _ => Ret uri
  end.

Definition _load_from_file (urlparts : ParseResult) (fs : FS)
  : result (option (list byte)) :=
  let path := url2pathname (path urlparts) in
  match fs_read path fs with
  | Done content => Ret (Some content)
  | FailsOSError => Ret None
  | FailsValueError => Raise ValueError
  end.

(** The dispatch table of [load_from_uri]; [None] is a missing key. *)
Definition URI_LOAD_HANDLERS (key : string)
  : option (ParseResult -> FS -> result (option (list byte))) :=
  if (key =? "file")%string then Some _load_from_file
  else if (key =? "none")%string then Some (fun _ _ => Ret (Some []))
  else None.

Definition load_from_uri (uri : string) (fs : FS) : result (option string) :=
  url_parts <- urlparse uri ;;
  match URI_LOAD_HANDLERS (scheme url_parts) with
  | None => Raise (KeyError (scheme url_parts))
  | Some handler =>
      content <- handler url_parts fs ;;
      match content with
      | None => Ret None
      | Some content =>
          content <- decode_by_charset content ;;
          Ret (Some (remove nul content))
      end
  end.

Definition _save_to_file (urlparts : ParseResult) (content : list byte)
  (create : bool) (fs : FS) : result bool * FS :=
  let path := url2pathname (path urlparts) in
  let write (fs : FS) :=
    match fs_open_wb path fs with
    | FailsOSError => (Ret false, fs)
    | FailsValueError => (Raise ValueError, fs)
    | Done opened =>
        (* [file.write(content)] stands outside the [try] *)
        match fs_write path content opened with
        | (Done _, fs') => (Ret true, fs')
        | (FailsOSError, fs') => (Raise OSError, fs')
        | (FailsValueError, fs') => (Raise ValueError, fs')
        end
    end in
  if negb create then
    if negb (fs_isfile path fs) then (Ret false, fs) else write fs
  else
    let dirname := dirname path in
    if negb (fs_isdir dirname fs) then
      match fs_makedirs dirname fs with
      | (FailsOSError, fs') => (Ret false, fs')
      | (FailsValueError, fs') => (Raise ValueError, fs')
      | (Done _, fs') => write fs'
      end
    else write fs.

(** The dispatch table of [save_to_uri]. *)
Definition URI_SAVE_HANDLERS (key : string)
  : option (ParseResult -> list byte -> bool -> FS -> result bool * FS) :=
  if (key =? "file")%string then Some _save_to_file
  else if (key =? "none")%string then Some (fun _ _ _ fs => (Ret true, fs))
  else None.

Definition save_to_uri (uri : string) (content : list byte) (create : bool)
  (fs : FS) : result bool * FS :=
  match urlparse uri with
  | Raise e => (Raise e, fs)
  | Ret url_parts =>
      match URI_SAVE_HANDLERS (scheme url_parts) with
      | None => (Raise (KeyError (scheme url_parts)), fs)
      | Some handler => handler url_parts content create fs
      end
  end.

(** *** [LyricsService] *)

(** The service object: the association store, the current track, and the
    number of [CurrentLyricsChanged] signals emitted so far. *)
Record Service : Type := {
  _db : LrcDb.t;
  _metadata : Metadata;
  signals : nat
}.

Definition CurrentLyricsChanged (self : Service) : Service :=
  {| _db := _db self; _metadata := _metadata self;
     signals := S (signals self) |}.

Definition set_current_metadata (self : Service) (metadata : Metadata)
  : Service :=
  {| _db := _db self; _metadata := metadata; signals := signals self |}.

Definition file_patterns : list string :=
  config_get_string_list "General/lrc-filename" DEFAULT_FILE_PATTERNS.

Definition path_patterns : list string :=
  config_get_string_list "General/lrc-path" DEFAULT_PATH_PATTERNS.

(** The inner loop of [_expand_patterns]: the first candidate under [path]
    that is a file. *)
Fixpoint first_existing (path : string) (file_pats : list string)
  (metadata : Metadata) (fs : FS) : option string :=
  match file_pats with
  | [] => None
  | file_pat :: rest =>
      match expand_file file_pat metadata with
      | None => first_existing path rest metadata fs
      | Some filename =>
          let fullpath := join path (filename ++ ".lrc") in
          if fs_isfile fullpath fs then Some fullpath
          else first_existing path rest metadata fs
      end
  end.

Fixpoint expand_patterns_from (path_pats : list string) (metadata : Metadata)
  (fs : FS) : option string :=
  match path_pats with
  | [] => None
  | path_pat :: rest =>
      match expand_path path_pat metadata with
      | None => expand_patterns_from rest metadata fs
      | Some path =>
          match first_existing path file_patterns metadata fs with
          | Some fullpath => Some fullpath
          | None => expand_patterns_from rest metadata fs
          end
      end
  end.

Definition _expand_patterns (metadata : Metadata) (fs : FS) : option string :=
  expand_patterns_from path_patterns metadata fs.

(** The inner loop of [_save_to_patterns]: the first candidate under
    [path] that can be saved; [Ret None] when the loop runs out. *)
Fixpoint first_saved (path : string) (file_pats : list string)
  (metadata : Metadata) (content : list byte) (fs : FS)
  : result (option string) * FS :=
  match file_pats with
  | [] => (Ret None, fs)
  | file_pat :: rest =>
      match expand_file file_pat metadata with
      | None => first_saved path rest metadata content fs
      | Some filename =>
          let fullpath := join path (filename ++ ".lrc") in
          let uri := path2uri fullpath in
          match save_to_uri uri content true fs with
          | (Raise e, fs') => (Raise e, fs')
          | (Ret true, fs') => (Ret (Some uri), fs')
          | (Ret false, fs') => first_saved path rest metadata content fs'
          end
      end
  end.

Fixpoint save_to_patterns_from (path_pats : list string) (metadata : Metadata)
  (content : list byte) (fs : FS) : result string * FS :=
  match path_pats with
  | [] => (Ret "", fs)
  | path_pat :: rest =>
      match expand_path path_pat metadata with
      | None => save_to_patterns_from rest metadata content fs
      | Some path =>
          match first_saved path file_patterns metadata content fs with
          | (Raise e, fs') => (Raise e, fs')
          | (Ret (Some uri), fs') => (Ret uri, fs')
          | (Ret None, fs') => save_to_patterns_from rest metadata content fs'
          end
      end
  end.

Definition _save_to_patterns (metadata : Metadata) (content : list byte)
  (fs : FS) : result string * FS :=
  save_to_patterns_from path_patterns metadata content fs.

Definition find_lrc_from_db (self : Service) (metadata : Metadata)
  : result (option string) :=
  let uri := LrcDb.find (_db self) metadata in
  match uri with
  | Some EmptyString => Ret (Some "none:")
  | _ => ensure_uri_scheme uri
  end.

Definition find_lrc_by_pattern (metadata : Metadata) (fs : FS)
  : result (option string) :=
  ensure_uri_scheme (_expand_patterns metadata fs).

Definition assign_lrc_uri (self : Service) (metadata : Metadata)
  (uri : string) : Service :=
  let self :=
    {| _db := LrcDb.assign (_db self) metadata uri;
       _metadata := _metadata self; signals := signals self |} in
  if Metadata_eqb metadata (_metadata self)
  then CurrentLyricsChanged self
  else self.

(** [GetRawLyrics].  The first stage either returns ([Some]) or falls
    through with [lrc] still [None]; the second stage is then the pattern
    search alone. *)
Definition GetRawLyrics (self : Service) (metadata : Metadata) (fs : FS)
  : result (bool * string * string) :=
  uri <- find_lrc_from_db self metadata ;;
  returned <-
    (match uri with
     | Some (String c u) =>
         let uri := String c u in
         if (uri =? "none:")%string then Ret (Some (true, uri, ""))
         else
           lrc <- load_from_uri uri fs ;;
           match lrc with
           | Some lrc => Ret (Some (true, uri, lrc))
           | None => Ret None
           end
     | _ => Ret None
     end) ;;
  match returned with
  | Some answer => Ret answer
  | None =>
      uri <- find_lrc_by_pattern metadata fs ;;
      lrc <-
        (match uri with
         | Some (String c u) => load_from_uri (String c u) fs
         | _ => Ret None
         end) ;;
      match lrc, uri with
      | Some lrc, Some uri => Ret (true, uri, lrc)
      | _, _ => Ret (false, "", "")
      end
  end.

(** A source of [GetRawLyrics] that yields no content: no URI, or a URI
    that [load_from_uri] fails on, which it reports by returning [None]. *)
Definition unloadable (uri : option string) (fs : FS) : Prop :=
  truthy uri = false
  \/ exists u, uri = Some u /\ load_from_uri u fs = Ret None.

Definition GetCurrentRawLyrics (self : Service) (fs : FS)
  : result (bool * string * string) :=
  GetRawLyrics self (_metadata self) fs.

Definition SetLyricContent (self : Service) (metadata : Metadata)
  (content : list byte) (fs : FS) : result string * Service * FS :=
  let self :=
    {| _db := LrcDb.delete (_db self) metadata;
       _metadata := _metadata self; signals := signals self |} in
  match _save_to_patterns metadata (rstrip_nul content) fs with
  | (Raise e, fs') => (Raise e, self, fs')
  | (Ret uri, fs') =>
      let self :=
        if truthy (Some uri) && Metadata_eqb metadata (_metadata self)
        then CurrentLyricsChanged self
        else self in
      (Ret uri, self, fs')
  end.

Definition AssignLyricFile (self : Service) (metadata : Metadata)
  (uri : string) : Service :=
  assign_lrc_uri self metadata uri.

Definition SetOffset (uri : string) (offset_ms : Z) (fs : FS)
  : result unit * FS :=
  if negb (is_valid_uri uri) then (Raise (InvalidUriException uri), fs)
  else
    match load_from_uri uri fs with
    | Raise e => (Raise e, fs)
    | Ret None => (Raise (CannotLoadLrcException uri), fs)
    | Ret (Some content) =>
        let content := encode_utf8 (update_lrc_offset content offset_ms) in
        match save_to_uri uri content true fs with
        | (Raise e, fs') => (Raise e, fs')
        | (Ret false, fs') => (Raise (CannotSaveLrcException uri), fs')
        | (Ret true, fs') => (Ret tt, fs')
        end
    end.

End WithPlatform.
End Lyrics.

(* ================================================================== *)
(** ** A platform to run the engine on *)

(** A small POSIX-like platform for the examples: percent-quoting as
    [urllib] does it, a filesystem of named byte strings that can be
    mounted read-only or be full, a home directory, and test doubles for
    the charset detector, the codecs, the pattern expander and the
    configuration.  Of the IP literals it knows the loopback address only,
    and its normalisation changes nothing. *)
Module Demo.
Import PyStr OsPath Urllib.

Definition hex_digit (n : nat) : ascii :=
  ascii_of_nat (if (n <? 10)%nat then 48 + n else 55 + n).

Definition hex_val (c : ascii) : option nat :=
  let n := nat_of_ascii c in
  if in_range 48 57 c then Some (n - 48)
  else if in_range 65 70 c then Some (n - 55)
  else if in_range 97 102 c then Some (n - 87)
  else None.

(** [urllib.parse.quote(s)] with the default [safe='/']. *)
Fixpoint quote (s : string) : string :=
  match s with
  | EmptyString => EmptyString
  | String c s' =>
      if is_alpha c || in_range 48 57 c || mem c "_.-~/"
      then String c (quote s')
      else
        let n := nat_of_ascii c in
        String "%" (String (hex_digit (n / 16))
                      (String (hex_digit (n mod 16)) (quote s')))
  end.

(** [urllib.parse.unquote(s)], short of the replacement of byte sequences
    that are not UTF-8. *)
Fixpoint unquote (s : string) : string :=
  match s with
  | EmptyString => EmptyString
  | String c t =>
      let keep := String c (unquote t) in
      if (c =? "%")%char then
        match t with
        | String a (String b t') =>
            match hex_val a, hex_val b with
            | Some x, Some y => String (ascii_of_nat (16 * x + y)) (unquote t')
            | _, _ => keep
            end
        | _ => keep
        end
      else keep
  end.

Definition home (name : string) : option string :=
  if (name =? "")%string then Some "/home/user" else None.

(** A disk: its files and directories, whether it is mounted read-only,
    and whether it is full. *)
Record Disk : Type := {
  files : list (string * list byte);
  dirs : list string;
  read_only : bool;
  full : bool
}.

(** A path with an embedded NUL is refused with [ValueError]; a file
    that is not there is an [OSError]. *)
Definition read (path : string) (d : Disk) : outcome (list byte) :=
  if mem nul path then FailsValueError
  else match find (fun f => (fst f =? path)%string) (files d) with
       | Some f => Done (snd f)
       | None => FailsOSError
       end.

Definition isfile (path : string) (d : Disk) : bool :=
  existsb (fun f => (fst f =? path)%string) (files d).

Definition isdir (path : string) (d : Disk) : bool :=
  existsb (String.eqb path) (dirs d).

Definition makedirs (path : string) (d : Disk) : outcome unit * Disk :=
  if mem nul path then (FailsValueError, d)
  else if read_only d || (path =? "")%string || isfile path d
  then (FailsOSError, d)
  else (Done tt, {| files := files d; dirs := path :: dirs d;
                    read_only := read_only d; full := full d |}).

Definition put (path : string) (content : list byte) (d : Disk) : Disk :=
  {| files :=
       (path, content)
       :: filter (fun f => negb (fst f =? path)%string) (files d);
     dirs := dirs d; read_only := read_only d; full := full d |}.

(** Opening for writing leaves the file empty. *)
Definition open_wb (path : string) (d : Disk) : outcome Disk :=
  if mem nul path then FailsValueError
  else if read_only d || negb (isdir (dirname path) d) || isdir path d
  then FailsOSError
  else Done (put path [] d).

(** On a full disk, writing anything fails and the file stays empty. *)
Definition write (path : string) (content : list byte) (d : Disk)
  : outcome unit * Disk :=
  match content with
  | [] => (Done tt, d)
  | _ => if full d then (FailsOSError, d) else (Done tt, put path content d)
  end.

(** [content.startswith(prefix)] on bytes. *)
Fixpoint starts_with (prefix content : list byte) : bool :=
  match prefix, content with
  | [], _ => true
  | p :: prefix', c :: content' => Byte.eqb p c && starts_with prefix' content'
  | _ :: _, [] => false
  end.

(** A detector double: the byte order mark [FE FF 00 00] is reported under
    the name chardet gives it, text of ASCII bytes is ["ascii"]; the empty
    input and other input with a byte above 127 are left undetermined. *)
Definition detect (content : list byte) : option string :=
  match content with
  | [] => None
  | _ =>
      if starts_with [xfe; xff; x00; x00] content
      then Some "X-ISO-10646-UCS-4-3412"
      else if forallb (fun b => (Byte.to_nat b <? 128)%nat) content
      then Some "ascii" else None
  end.

(** A codec double: it knows the three names the engine maps to, and the
    text keeps the bytes as its code units. *)
Definition decode (encoding : string) (content : list byte)
  : option string :=
  match content with
  | [] => Some EmptyString
  | _ =>
      if existsb (String.eqb encoding) ["utf-8"; "gb18030"; "big5hkscs"]
      then Some (string_of_list_byte content)
      else None
  end.

(** A pattern expander double: [%] is the directory of the track, which
    needs a location; [%t] the title, [%p] the artist; [%f] is the file
    name of the track, which this double never knows. *)
Definition path_of_pattern (pattern : string) (m : Metadata) : option string :=
  if (pattern =? "%")%string then option_map dirname (location m)
  else if (pattern =? "~/.lyrics")%string then Some "/home/user/.lyrics"
  else Some pattern.

Definition file_of_pattern (pattern : string) (m : Metadata) : option string :=
  if (pattern =? "%t")%string then title m
  else if (pattern =? "%p-%t")%string then
    match artist m, title m with
    | Some p, Some t => Some (p ++ "-" ++ t)
    | _, _ => None
    end
  else if (pattern =? "%t-%p")%string then
    match artist m, title m with
    | Some p, Some t => Some (t ++ "-" ++ p)
    | _, _ => None
    end
  else None.

#[export] Instance platform : Platform := {|
  chardet_detect := detect;
  bytes_decode := decode;
  bytes_decode_empty := fun _ => eq_refl;
  check_bracketed_netloc := fun netloc => (netloc =? "[::1]")%string;
  unicodedata_normalize_NFKC := fun s => s;
  url2pathname := unquote;
  pathname2url := quote;
  userhome := home;
  FS := Disk;
  fs_read := read;
  fs_isfile := isfile;
  fs_isdir := isdir;
  fs_makedirs := makedirs;
  fs_open_wb := open_wb;
  fs_write := write;
  expand_path := path_of_pattern;
  expand_file := file_of_pattern;
  config_get_string_list := fun _ default => default
|}.

(** A track, a lyrics file for it, and two disks. *)
Definition song : Metadata :=
  {| title := Some "Song"; artist := Some "Band";
     album := None; location := None |}.

Definition lrc_bytes : list byte := list_byte_of_string "[ti:Song]".

Definition disk : Disk :=
  {| files := [("/home/user/.lyrics/Band-Song.lrc", lrc_bytes)];
     dirs := ["/home/user/.lyrics"; "/home/user"];
     read_only := false; full := false |}.

Definition frozen_disk : Disk :=
  {| files := files disk; dirs := dirs disk; read_only := true;
     full := false |}.

Definition full_disk : Disk :=
  {| files := files disk; dirs := dirs disk; read_only := false;
     full := true |}.

(** A lyrics file with an embedded NUL, and one of 41 bytes that the
    detector double cannot classify. *)
Definition nul_disk : Disk :=
  {| files := [("/home/user/.lyrics/nul.lrc", [x61; x00; x62])];
     dirs := dirs disk; read_only := false; full := false |}.

Definition raw_bytes : list byte := repeat x81 41.

Definition raw_disk : Disk :=
  {| files := ("/home/user/.lyrics/raw.lrc", raw_bytes) :: files disk;
     dirs := dirs disk; read_only := false; full := false |}.

(** A service whose store holds a record for the track: one whose file is
    gone, and one that points at the unclassifiable file. *)
Definition stale_service : Lyrics.Service :=
  {| Lyrics._db :=
       LrcDb.assign (fun _ => None) song "/home/user/gone.lrc";
     Lyrics._metadata := song;
     Lyrics.signals := 0 |}.

Definition raw_service : Lyrics.Service :=
  {| Lyrics._db :=
       LrcDb.assign (fun _ => None) song "/home/user/.lyrics/raw.lrc";
     Lyrics._metadata := song;
     Lyrics.signals := 0 |}.

End Demo.

(* ================================================================== *)
(** ** The candidates of the pattern loops *)

Module LyricsSpec.
Import PyStr OsPath Lyrics.

Section WithPlatform.
Context {P : Platform}.

(** [fullpath] is a path the two nested loops of [_expand_patterns] and
    [_save_to_patterns] form from the given pattern lists: both patterns
    expand, and the path is [os.path.join(path, filename + '.lrc')]. *)
Definition candidate_of (path_pats file_pats : list string)
  (metadata : Metadata) (fullpath : string) : Prop :=
  exists path_pat file_pat path filename,
    In path_pat path_pats /\ In file_pat file_pats
    /\ expand_path path_pat metadata = Some path
    /\ expand_file file_pat metadata = Some filename
    /\ fullpath = join path (filename ++ ".lrc").

Definition candidate : Metadata -> string -> Prop :=
  candidate_of path_patterns file_patterns.

End WithPlatform.
End LyricsSpec.

(* ================================================================== *)
(** ** The rest of [osdlyrics.utils] that works on paths *)

Module UtilsFiles.
Import PyStr OsPath Utils.

(** [os.stat(path)], as far as [is_exec_file] reads it. *)
Record Stat : Type := {
  st_uid : Z;
  st_gid : Z;
  st_mode : Z
}.

(** The process: [os.environ], [os.stat] ([None] when it raises),
    [os.getuid()] and [os.getgroups()]. *)
Record Process : Type := {
  environ : string -> option string;
  os_stat : string -> option Stat;
  getuid : Z;
  getgroups : list Z
}.

Definition S_IXUSR : Z := 64.
Definition S_IXGRP : Z := 8.
Definition S_IXOTH : Z := 1.

(** [s.split(sep)] for a single character [sep]. *)
Fixpoint split (sep : ascii) (s : string) : list string :=
  match s with
  | EmptyString => [EmptyString]
  | String c s' =>
      if (c =? sep)%char then EmptyString :: split sep s'
      else match split sep s' with
           | [] => [String c EmptyString]
           | h :: t => String c h :: t
           end
  end.

Definition is_exec_file (proc : Process) (filepath : string) : bool :=
  match os_stat proc filepath with
  | None => false
  | Some st =>
      if (st_uid st =? getuid proc)%Z
      then negb (Z.land (st_mode st) S_IXUSR =? 0)%Z
      else if existsb (Z.eqb (st_gid st)) (getgroups proc)
      then negb (Z.land (st_mode st) S_IXGRP =? 0)%Z
      else negb (Z.land (st_mode st) S_IXOTH =? 0)%Z
  end.

Section WithPlatform.
Context {P : Platform}.

Definition get_config_path (filename : string) (expand : bool) : string :=
  let path := join "~/.config/osdlyrics/" filename in
  if expand then expanduser path else path.

(** [filter_func] is [None] or a callable. *)
Fixpoint find_file_in_dirs (filename : string) (dirs : list string)
  (filter_func : option (string -> bool)) (fs : FS) : list string :=
  match dirs with
  | [] => []
  | dir :: rest =>
      let path := join dir filename in
      if fs_isfile path fs
         && match filter_func with
            | None => true
            | Some f => f path
            end
      then path :: find_file_in_dirs filename rest filter_func fs
      else find_file_in_dirs filename rest filter_func fs
  end.

(** [os.environ['PATH']] raises [KeyError] when the variable is unset. *)
Definition cmd_exists (proc : Process) (cmd : string) (fs : FS)
  : result bool :=
  match environ proc "PATH" with
  | None => Raise (KeyError "PATH")
  | Some path_var =>
      let cmdfiles :=
        find_file_in_dirs cmd (split ":" path_var)
          (Some (is_exec_file proc)) fs in
      Ret (0 <? List.length cmdfiles)%nat
  end.

End WithPlatform.

(** [not callable(filter_func) or filter_func(path)] *)
Definition accepts (filter_func : option (string -> bool)) (path : string)
  : bool :=
  match filter_func with
  | None => true
  | Some f => f path
  end.

(** Every home directory the platform knows is an absolute path. *)
Definition absolute_homes {P : Platform} : Prop :=
  forall name home, userhome name = Some home -> isabs home = true.

(** [pathname2url] keeps the leading slash of an absolute path, as
    percent-quoting with the safe character ['/'] does. *)
Definition absolute_urls {P : Platform} : Prop :=
  forall path, isabs path = true -> isabs (pathname2url path) = true.

(** A process for the examples: user 1000 owns an executable
    [/home/user/.lyrics/Band-Song.lrc]. *)
Definition demo_process : Process :=
  {| environ := fun name =>
       if (name =? "PATH")%string then Some "/usr/bin:/home/user/.lyrics"
       else None;
     os_stat := fun path =>
       if (path =? "/home/user/.lyrics/Band-Song.lrc")%string
       then Some {| st_uid := 1000; st_gid := 1000; st_mode := 493 |}
       else None;
     getuid := 1000;
     getgroups := [1000%Z] |}.

End UtilsFiles.

(* ================================================================== *)
(** ** More tracks and services for the examples *)

Module DemoMore.

(** A track nothing is known about, and a track whose file has a
    relative location. *)
Definition unknown_track : Metadata :=
  {| title := None; artist := None; album := None; location := None |}.

Definition relative_track : Metadata :=
  {| title := Some "Song"; artist := Some "Band"; album := None;
     location := Some "rel/song.mp3" |}.

(** Five bytes that begin with the byte order mark [FE FF 00 00], and a
    disk with a lyrics file that holds them. *)
Definition bom_bytes : list byte := [xfe; xff; x00; x00; x61].

Definition bom_disk : Demo.Disk :=
  {| Demo.files := ("/home/user/.lyrics/bom.lrc", bom_bytes)
                   :: Demo.files Demo.disk;
     Demo.dirs := Demo.dirs Demo.disk;
     Demo.read_only := false; Demo.full := false |}.

(** Services whose store holds, for [Demo.song], a record that [urlparse]
    rejects, a record with a scheme that has no handler, and a record of
    the file with the byte order mark. *)
Definition bracket_service : Lyrics.Service :=
  {| Lyrics._db := LrcDb.assign (fun _ => None) Demo.song "//[x/a.lrc";
     Lyrics._metadata := Demo.song;
     Lyrics.signals := 0 |}.

Definition http_service : Lyrics.Service :=
  {| Lyrics._db :=
       LrcDb.assign (fun _ => None) Demo.song "http://example.org/a.lrc";
     Lyrics._metadata := Demo.song;
     Lyrics.signals := 0 |}.

Definition bom_service : Lyrics.Service :=
  {| Lyrics._db :=
       LrcDb.assign (fun _ => None) Demo.song "/home/user/.lyrics/bom.lrc";
     Lyrics._metadata := Demo.song;
     Lyrics.signals := 0 |}.

(** A service whose store marks [Demo.song] as having no lyrics. *)
Definition absent_service : Lyrics.Service :=
  {| Lyrics._db := LrcDb.assign (fun _ => None) Demo.song "";
     Lyrics._metadata := Demo.song;
     Lyrics.signals := 0 |}.

End DemoMore.


(* ================================================================== *)
(** * Properties *)

(** ** Strings *)

Module PyStrFacts.
Import PyStr.

Lemma app_assoc (a b c : string) : (a ++ b) ++ c = a ++ (b ++ c).
Proof. induction a as [|x a IH]; simpl; [reflexivity | now rewrite IH]. Qed.

Lemma app_nil_r (a : string) : a ++ "" = a.
Proof. induction a as [|x a IH]; simpl; [reflexivity | now rewrite IH]. Qed.

Lemma length_app (a b : string) : length (a ++ b) = length a + length b.
Proof. induction a as [|x a IH]; simpl; [reflexivity | now rewrite IH]. Qed.

Lemma take_app (p x : string) : take (length p) (p ++ x) = p.
Proof. induction p as [|c p IH]; simpl; [now destruct x | now rewrite IH]. Qed.

Lemma drop_app (p x : string) (n : nat) :
  drop (length p + n) (p ++ x) = drop n x.
Proof. induction p as [|c p IH]; simpl; [reflexivity | exact IH]. Qed.

Lemma drop_0 (x : string) : drop 0 x = x.
Proof. now destruct x. Qed.

Lemma strip_prefix_app (p x : string) : strip_prefix p (p ++ x) = Some x.
Proof.
  induction p as [|c p IH]; simpl; [reflexivity|].
  now rewrite Ascii.eqb_refl.
Qed.

Lemma strip_prefix_inv (p s r : string) :
  strip_prefix p s = Some r -> s = p ++ r.
Proof.
  revert s; induction p as [|c p IH]; intros s H; simpl in *.
  - now inversion H.
  - destruct s as [|d s]; [discriminate|].
    destruct (Ascii.eqb_spec c d) as [->|]; [|discriminate].
    now rewrite (IH _ H).
Qed.

Lemma mem_app (c : ascii) (a b : string) :
  mem c (a ++ b) = mem c a || mem c b.
Proof.
  induction a as [|x a IH]; simpl; [reflexivity|].
  now rewrite IH, orb_assoc.
Qed.

Lemma mem_remove (c : ascii) (s : string) : mem c (remove c s) = false.
Proof.
  induction s as [|a s IH]; simpl; [reflexivity|].
  destruct (Ascii.eqb_spec a c) as [->|Hne]; [exact IH|].
  simpl. rewrite IH. destruct (Ascii.eqb_spec a c); [contradiction|reflexivity].
Qed.

End PyStrFacts.

(** ** The offset rewriter *)

Module OffsetRewriterFacts.
Import PyStr PyStrFacts OffsetRewriter OffsetSpec.

Lemma clean_no_bracket (v : string) : clean v = true -> mem "]" v = false.
Proof.
  induction v as [|c v IH]; simpl; [reflexivity|].
  intros H. apply andb_prop in H as [H Hv]. apply andb_prop in H as [Hb _].
  rewrite (IH Hv). now destruct (c =? "]")%char.
Qed.

Lemma clean_no_newline (v : string) : clean v = true -> mem nl v = false.
Proof.
  induction v as [|c v IH]; simpl; [reflexivity|].
  intros H. apply andb_prop in H as [H Hv]. apply andb_prop in H as [_ Hn].
  rewrite (IH Hv). now destruct (c =? nl)%char.
Qed.

Lemma clean_uint (d : uint) : clean (NilEmpty.string_of_uint d) = true.
Proof. induction d; simpl; auto. Qed.

(** A decimal rendering holds digits and a sign only. *)
Lemma clean_str_of_int (z : Z) : clean (str_of_int z) = true.
Proof.
  unfold str_of_int, NilZero.string_of_int, NilZero.string_of_uint.
  destruct (Z.to_int z) as [d|d]; destruct d; simpl;
    try reflexivity; apply clean_uint.
Qed.

Lemma shift_shift (j k : nat) r : shift j (shift k r) = shift (j + k) r.
Proof.
  destruct r as [[a b]|]; simpl; [|reflexivity].
  f_equal. f_equal; lia.
Qed.

Lemma shift_None (k : nat) r : shift k r = None <-> r = None.
Proof. destruct r as [[a b]|]; simpl; split; congruence. Qed.

Lemma shift_Some (k : nat) r a e :
  shift k r = Some (a, e) ->
  exists a' e', r = Some (a', e') /\ a = k + a' /\ e = k + e'.
Proof.
  destruct r as [[a' e']|]; simpl; [|discriminate].
  intros [= <- <-]. now exists a', e'.
Qed.

(** *** The lazy value *)

Lemma lazy_value_clean (v rest : string) :
  clean v = true -> lazy_value (v ++ String "]" rest) = Some (length v).
Proof.
  induction v as [|c v IH]; simpl; [reflexivity|].
  intros H. apply andb_prop in H as [H Hv]. apply andb_prop in H as [Hb Hn].
  destruct (c =? "]")%char; [discriminate|].
  destruct (c =? nl)%char; [discriminate|].
  now rewrite (IH Hv).
Qed.

Lemma lazy_value_inv (s : string) (n : nat) :
  lazy_value s = Some n ->
  exists v rest, s = v ++ String "]" rest /\ length v = n /\ clean v = true.
Proof.
  revert n; induction s as [|c s IH]; simpl; intros n H; [discriminate|].
  destruct (Ascii.eqb_spec c "]") as [->|Hb].
  - injection H as <-. now exists "", s.
  - destruct (Ascii.eqb_spec c nl) as [->|Hn]; [discriminate|].
    destruct (lazy_value s) as [m|]; [|discriminate].
    injection H as <-.
    destruct (IH m eq_refl) as (v & rest & -> & <- & Hv).
    exists (String c v), rest. simpl. repeat split.
    rewrite Hv.
    destruct (Ascii.eqb_spec c "]"); [contradiction|].
    destruct (Ascii.eqb_spec c nl); [contradiction|reflexivity].
Qed.

Lemma lazy_value_line (v rest : string) :
  mem nl v = false -> lazy_value (v ++ String "]" rest) <> None.
Proof.
  induction v as [|c v IH]; simpl; [discriminate|].
  intros H. apply orb_false_elim in H as [Hc Hv].
  destruct (c =? "]")%char; [discriminate|].
  rewrite Hc. specialize (IH Hv).
  destruct (lazy_value (v ++ String "]" rest)); [discriminate|contradiction].
Qed.

(** Text that fails to close a value keeps failing when a later value is
    exchanged for another one. *)
Lemma lazy_value_None_stable (p v v' rest : string) :
  clean v = true -> clean v' = true ->
  lazy_value (p ++ v ++ String "]" rest) = None ->
  lazy_value (p ++ v' ++ String "]" rest) = None.
Proof.
  intros Hv Hv'. induction p as [|c p IH]; simpl.
  - now rewrite (lazy_value_clean v rest Hv).
  - destruct (c =? "]")%char; [discriminate|].
    destruct (c =? nl)%char; [reflexivity|].
    destruct (lazy_value (p ++ v ++ String "]" rest)); [discriminate|].
    intros _. now rewrite IH.
Qed.

(** *** The offset tag *)

Lemma offset_tag_here (v rest : string) :
  clean v = true ->
  offset_tag ("[offset:" ++ v ++ String "]" rest) = Some (8, 8 + length v).
Proof.
  intros Hv. unfold offset_tag.
  now rewrite strip_prefix_app, lazy_value_clean.
Qed.

Lemma offset_tag_inv (s : string) (a e : nat) :
  offset_tag s = Some (a, e) ->
  exists v rest,
    s = "[offset:" ++ v ++ String "]" rest
    /\ a = 8 /\ e = 8 + length v /\ clean v = true.
Proof.
  unfold offset_tag. intros H.
  destruct (strip_prefix "[offset:" s) as [r|] eqn:Hp; [|discriminate].
  destruct (lazy_value r) as [n|] eqn:Hl; [|discriminate].
  injection H as <- <-.
  apply strip_prefix_inv in Hp.
  destruct (lazy_value_inv _ _ Hl) as (v & rest & -> & <- & Hv).
  now exists v, rest.
Qed.

(** Past a non-empty prefix, whether the text opens with [[offset:] does
    not depend on what follows a later [[offset:]. *)
Lemma strip_offset_far (c : ascii) (pre : string) :
  (forall y, strip_prefix "[offset:" (String c pre ++ "[offset:" ++ y) = None)
  \/ (exists p, forall y,
        strip_prefix "[offset:" (String c pre ++ "[offset:" ++ y)
        = Some (p ++ "[offset:" ++ y)).
Proof.
  cbn [strip_prefix append].
  destruct (Ascii.eqb_spec "[" c) as [E|E]; [subst|left; reflexivity].
  do 7 (destruct pre as [|? pre]; cbn [strip_prefix append];
        match goal with
        | |- context [(?a =? ?b)%char] =>
            destruct (Ascii.eqb_spec a b) as [E|E]
        end;
        first [discriminate E | left; reflexivity | subst]).
  right. now exists pre.
Qed.

Lemma offset_tag_None_stable (c : ascii) (pre v v' rest : string) :
  clean v = true -> clean v' = true ->
  offset_tag (String c pre ++ "[offset:" ++ v ++ String "]" rest) = None ->
  offset_tag (String c pre ++ "[offset:" ++ v' ++ String "]" rest) = None.
Proof.
  intros Hv Hv'. unfold offset_tag.
  destruct (strip_offset_far c pre) as [HN|[p HS]].
  - now rewrite !HN.
  - rewrite !HS, <- !(app_assoc p "[offset:").
    destruct (lazy_value ((p ++ "[offset:") ++ v ++ String "]" rest)) eqn:E;
      [discriminate|].
    intros _. now rewrite (lazy_value_None_stable _ v v' rest Hv Hv' E).
Qed.

(** *** The tag run *)

Lemma tag_run_between (s : string) :
  tag_run false s =
  match offset_tag s with
  | Some span => Some span
  | None =>
      match s with
      | EmptyString => None
      | String c s' =>
          if (c =? "[")%char then shift 1 (tag_run true s') else None
      end
  end.
Proof. now destruct s. Qed.

(** Inside a tag the matcher runs to the first closing bracket. *)
Lemma tag_run_inside (w rest : string) :
  mem "]" w = false ->
  tag_run true (w ++ String "]" rest)
  = shift (length w + 1) (tag_run false rest).
Proof.
  induction w as [|c w IH]; intros Hw.
  - reflexivity.
  - simpl in Hw. apply orb_false_elim in Hw as [Hc Hw].
    change (tag_run true (String c w ++ String "]" rest))
      with (shift 1 (tag_run (negb (c =? "]")%char) (w ++ String "]" rest))).
    rewrite Hc. simpl negb. rewrite (IH Hw), shift_shift. reflexivity.
Qed.

Lemma tag_run_sound (s : string) :
  forall b a e,
    tag_run b s = Some (a, e) ->
    exists pre v rest, found_at s a e pre v rest /\ run_shape b pre.
Proof.
  induction s as [|c s IH]; intros b a e H.
  - destruct b; discriminate.
  - destruct b.
    + change (shift 1 (tag_run (negb (c =? "]")%char) s) = Some (a, e)) in H.
      apply shift_Some in H as (a' & e' & H & -> & ->).
      apply IH in H as (pre & v & rest & (-> & -> & -> & Hv) & Hs).
      exists (String c pre), v, rest. split.
      * repeat split; simpl; try lia; assumption.
      * simpl. destruct (Ascii.eqb_spec c "]") as [->|Hc]; simpl in Hs.
        -- now exists "", pre.
        -- destruct Hs as (body & tags & -> & Hb & Ht).
           exists (String c body), tags. repeat split; [|assumption].
           simpl. rewrite Hb.
           now destruct (Ascii.eqb_spec c "]").
    + rewrite tag_run_between in H.
      destruct (offset_tag (String c s)) as [[x y]|] eqn:Ho.
      * injection H as -> ->.
        apply offset_tag_inv in Ho as (v & rest & Hs & -> & -> & Hv).
        exists "", v, rest. split; [|constructor].
        repeat split; assumption.
      * destruct (Ascii.eqb_spec c "[") as [->|]; [|discriminate].
        apply shift_Some in H as (a' & e' & H & -> & ->).
        apply IH in H
          as (pre & v & rest & (-> & -> & -> & Hv)
              & (body & tags & -> & Hb & Ht)).
        exists (String "[" (body ++ String "]" tags)), v, rest. split.
        -- repeat split; simpl; try lia; assumption.
        -- now constructor.
Qed.

(** Exchanging the value of an offset tag for another clean value changes
    neither a failure of the matcher before it nor a match on it. *)
Lemma tag_run_stable (pre v v' rest : string) :
  clean v = true -> clean v' = true ->
  forall b,
    (tag_run b (pre ++ "[offset:" ++ v ++ String "]" rest) = None ->
     tag_run b (pre ++ "[offset:" ++ v' ++ String "]" rest) = None)
    /\ (tag_run b (pre ++ "[offset:" ++ v ++ String "]" rest)
        = Some (length pre + 8, length pre + 8 + length v) ->
        tag_run b (pre ++ "[offset:" ++ v' ++ String "]" rest)
        = Some (length pre + 8, length pre + 8 + length v')).
Proof.
  intros Hv Hv'.
  assert (Hin : forall x, clean x = true -> mem "]" ("[offset:" ++ x) = false).
  { intros x Hx. rewrite mem_app, (clean_no_bracket x Hx). reflexivity. }
  induction pre as [|c pre IH]; intros b.
  - change ("" ++ ?x) with x. destruct b.
    + rewrite <- !(app_assoc "[offset:").
      rewrite !tag_run_inside by auto. rewrite !length_app.
      split; intros H.
      * apply shift_None in H. now apply shift_None.
      * apply shift_Some in H as (a' & e' & _ & Ha & _). simpl in Ha. lia.
    + rewrite !tag_run_between, !offset_tag_here by assumption.
      split; [discriminate|reflexivity].
  - set (t := "[offset:" ++ v ++ String "]" rest) in *.
    set (t' := "[offset:" ++ v' ++ String "]" rest) in *.
    change (String c pre ++ ?x) with (String c (pre ++ x)).
    destruct b.
    + change (tag_run true (String c (pre ++ ?x)))
        with (shift 1 (tag_run (negb (c =? "]")%char) (pre ++ x))).
      destruct (IH (negb (c =? "]")%char)) as [IHn IHs].
      split; intros H.
      * apply shift_None in H. apply shift_None. auto.
      * apply shift_Some in H as (a' & e' & H & Ha & He).
        simpl length in Ha, He.
        replace a' with (length pre + 8) in H by lia.
        replace e' with (length pre + 8 + length v) in H by lia.
        rewrite (IHs H). reflexivity.
    + rewrite !tag_run_between.
      destruct (offset_tag (String c (pre ++ t))) as [[x y]|] eqn:Ho.
      * apply offset_tag_inv in Ho as (_ & _ & _ & -> & _ & _).
        split; [discriminate|]. intros [= Hx _]. simpl in Hx. lia.
      * assert (Ho' : offset_tag (String c (pre ++ t')) = None)
          by exact (offset_tag_None_stable c pre v v' rest Hv Hv' Ho).
        rewrite Ho'.
        destruct (c =? "[")%char; [|split; [reflexivity|discriminate]].
        destruct (IH true) as [IHn IHs].
        split; intros H.
        -- apply shift_None in H. apply shift_None. auto.
        -- apply shift_Some in H as (a' & e' & H & Ha & He).
           simpl length in Ha, He.
           replace a' with (length pre + 8) in H by lia.
           replace e' with (length pre + 8 + length v) in H by lia.
           rewrite (IHs H). reflexivity.
Qed.

Lemma tag_run_complete (tags value rest : string) :
  bracket_tags tags -> mem nl value = false ->
  tag_run false (tags ++ "[offset:" ++ value ++ String "]" rest) <> None.
Proof.
  intros Ht Hval. induction Ht as [|body more Hb Ht IH].
  - change ("" ++ ?x) with x. rewrite tag_run_between. unfold offset_tag.
    rewrite strip_prefix_app.
    pose proof (lazy_value_line value rest Hval) as Hl.
    destruct (lazy_value (value ++ String "]" rest)); [discriminate|].
    contradiction.
  - rewrite tag_run_between.
    destruct (offset_tag _); [discriminate|].
    change (String "[" ?x ++ ?y) with (String "[" (x ++ y)).
    cbv iota. change ("[" =? "[")%char with true. cbv iota.
    rewrite app_assoc.
    change (String "]" more ++ ?y) with (String "]" (more ++ y)).
    rewrite (tag_run_inside _ _ Hb).
    intros H. apply shift_None in H. apply shift_None in H. now apply IH.
Qed.

(** *** The search *)

Lemma search_from_eq (bol : bool) (s : string) :
  search_from bol s =
  match (if bol then tag_run false s else None) with
  | Some span => Some span
  | None =>
      match s with
      | EmptyString => None
      | String c s' => shift 1 (search_from (c =? nl)%char s')
      end
  end.
Proof. now destruct s. Qed.

(** A successful search has found an offset tag behind a line start and a
    run of tags, and finds the same tag again when its value is exchanged
    for any other clean value. *)
Lemma search_from_sound (s : string) :
  forall bol a e,
    search_from bol s = Some (a, e) ->
    exists pre v rest,
      found_at s a e pre v rest
      /\ (exists before tags,
             pre = before ++ tags
             /\ line_start_from bol before /\ bracket_tags tags)
      /\ (forall v', clean v' = true ->
             search_from bol (pre ++ "[offset:" ++ v' ++ String "]" rest)
             = Some (a, a + length v')).
Proof.
  induction s as [|c s IH]; intros bol a e H; rewrite search_from_eq in H.
  - destruct bol; discriminate.
  - destruct (if bol then tag_run false (String c s) else None)
      as [[x y]|] eqn:Hr.
    + injection H as -> ->. destruct bol; [|discriminate].
      destruct (tag_run_sound _ _ _ _ Hr) as (pre & v & rest & Hf & Hs).
      exists pre, v, rest. split; [assumption|]. split.
      * exists "", pre. repeat split; [now left|exact Hs].
      * intros v' Hv'. rewrite search_from_eq.
        destruct Hf as (Hs0 & -> & -> & Hv). rewrite Hs0 in Hr.
        destruct (tag_run_stable pre v v' rest Hv Hv' false) as [_ HS].
        now rewrite (HS Hr).
    + apply shift_Some in H as (a' & e' & H & -> & ->).
      apply IH in H
        as (pre & v & rest & (-> & -> & -> & Hv)
            & (before & tags & -> & Hl & Ht) & Hst).
      exists (String c (before ++ tags)), v, rest. split; [|split].
      * repeat split; simpl; try lia; assumption.
      * exists (String c before), tags. repeat split; [|assumption].
        right. destruct Hl as [[-> Hc]|[b ->]].
        -- exists "". apply Ascii.eqb_eq in Hc. now subst.
        -- now exists (String c b).
      * intros v' Hv'. rewrite search_from_eq.
        change (String c (before ++ tags) ++ ?x)
          with (String c ((before ++ tags) ++ x)) in *.
        assert (Hr' : (if bol
                       then tag_run false
                              (String c ((before ++ tags)
                                 ++ "[offset:" ++ v' ++ String "]" rest))
                       else None) = None).
        { destruct bol; [|reflexivity].
          destruct (tag_run_stable (String c (before ++ tags)) v v' rest
                      Hv Hv' false) as [HN _].
          exact (HN Hr). }
        rewrite Hr', (Hst v' Hv'). simpl. f_equal; f_equal; lia.
Qed.

Lemma search_from_complete (before x : string) :
  forall bol,
    line_start_from bol before ->
    tag_run false x <> None ->
    search_from bol (before ++ x) <> None.
Proof.
  induction before as [|c before IH]; intros bol Hl Hx;
    rewrite search_from_eq.
  - destruct Hl as [[_ ->]|[b Hb]]; [|now destruct b].
    change ("" ++ x) with x.
    destruct (tag_run false x); [discriminate|contradiction].
  - destruct (if bol then _ else _); [discriminate|].
    change (String c before ++ x) with (String c (before ++ x)). cbv iota.
    intros H. apply shift_None in H. revert H. apply IH; [|assumption].
    destruct Hl as [[Hc _]|[b Hb]]; [discriminate|].
    destruct b as [|d b]; simpl in Hb; injection Hb as -> ->.
    + left. split; [reflexivity|apply Ascii.eqb_refl].
    + right. now exists b.
Qed.

(** The matcher decides the occurrence the design document describes. *)
Lemma re_search_offset_sound (content : string) (a e : nat) :
  re_search_offset content = Some (a, e) -> anchored_offset_tag content.
Proof.
  intros H. apply search_from_sound in H
    as (pre & v & rest & (-> & _ & _ & Hv) & (before & tags & -> & Hl & Ht) & _).
  exists before, tags, v, rest. rewrite app_assoc.
  repeat split; try assumption. now apply clean_no_newline.
Qed.

Lemma re_search_offset_complete (content : string) :
  anchored_offset_tag content -> re_search_offset content <> None.
Proof.
  intros (before & tags & value & rest & -> & Hl & Ht & Hv).
  apply search_from_complete; [exact Hl|].
  now apply tag_run_complete.
Qed.

(** *** [update_lrc_offset] *)

(** The doctests of [update_lrc_offset]. *)
Example update_lrc_offset_doctests :
  update_lrc_offset "no tag" 100 = "[offset:100]" ++ String nl "no tag"
  /\ update_lrc_offset
       ("[ti:title]" ++ String nl ("[offset:200]" ++ String nl "Some lrc")) 100
     = "[ti:title]" ++ String nl ("[offset:100]" ++ String nl "Some lrc")
  /\ update_lrc_offset
       ("[ti:title][offset:200]Some lrc" ++ String nl "another") 100
     = "[ti:title][offset:100]Some lrc" ++ String nl "another"
  /\ update_lrc_offset "Some [offset:200] lrc" 100
     = "[offset:100]" ++ String nl "Some [offset:200] lrc"
  /\ update_lrc_offset "[[offset:200]] lrc" 100
     = "[offset:100]" ++ String nl "[[offset:200]] lrc".
Proof. repeat split. Qed.

(** The rewrite, once the search has reported the value of a tag. *)
Lemma update_lrc_offset_at (pre v rest : string) (N : Z) :
  re_search_offset (pre ++ "[offset:" ++ v ++ String "]" rest)
  = Some (length pre + 8, length pre + 8 + length v) ->
  update_lrc_offset (pre ++ "[offset:" ++ v ++ String "]" rest) N
  = pre ++ "[offset:" ++ str_of_int N ++ String "]" rest.
Proof.
  intros H. unfold update_lrc_offset. rewrite H.
  rewrite <- (app_assoc pre "[offset:" (v ++ _)).
  replace (length pre + 8) with (length (pre ++ "[offset:"))
    by (rewrite length_app; reflexivity).
  rewrite take_app.
  rewrite <- length_app, <- (app_assoc _ v), <- (Nat.add_0_r (length _)).
  rewrite drop_app, drop_0.
  now rewrite !app_assoc.
Qed.

Lemma re_search_offset_found (content : string) (a e : nat) :
  re_search_offset content = Some (a, e) ->
  exists pre v rest,
    content = pre ++ "[offset:" ++ v ++ String "]" rest
    /\ a = length pre + 8 /\ e = a + length v
    /\ forall v', clean v' = true ->
         re_search_offset (pre ++ "[offset:" ++ v' ++ String "]" rest)
         = Some (a, a + length v').
Proof.
  intros H. apply search_from_sound in H
    as (pre & v & rest & (-> & -> & -> & Hv) & _ & Hst).
  now exists pre, v, rest.
Qed.

Lemma re_search_offset_fresh (v rest : string) :
  clean v = true ->
  re_search_offset ("[offset:" ++ v ++ String "]" rest)
  = Some (8, 8 + length v).
Proof.
  intros Hv. unfold re_search_offset.
  now rewrite search_from_eq, tag_run_between, offset_tag_here.
Qed.

(** C2.  For every content and every pair of integer offsets [A] and [B],
    rewriting with [A] and then with [B] gives what rewriting with [B]
    alone gives; with [A = B] the rewrite is idempotent. *)
Theorem update_lrc_offset_overwrite (content : string) (A B : Z) :
  update_lrc_offset (update_lrc_offset content A) B
  = update_lrc_offset content B.
Proof.
  destruct (re_search_offset content) as [[a e]|] eqn:Hs.
  - destruct (re_search_offset_found content a e Hs)
      as (pre & v & rest & -> & -> & -> & Hst).
    rewrite !(update_lrc_offset_at pre v rest) by exact Hs.
    apply update_lrc_offset_at, Hst, clean_str_of_int.
  - unfold update_lrc_offset at 2 3. rewrite Hs.
    apply (update_lrc_offset_at "" (str_of_int A) (String nl content) B).
    apply re_search_offset_fresh, clean_str_of_int.
Qed.

(** Where no line begins with an opening bracket, the search has no
    place to start a match. *)
Lemma search_from_no_bracket (bol : bool) (s : string) :
  bracket_at_line_start bol s = false -> search_from bol s = None.
Proof.
  revert bol. induction s as [|c s IH]; intros bol H.
  - rewrite search_from_eq. now destruct bol.
  - cbn [bracket_at_line_start] in H. apply orb_false_elim in H as [Hb Hs].
    rewrite search_from_eq, (IH _ Hs).
    destruct bol; [|reflexivity].
    cbn [andb] in Hb. rewrite tag_run_between, Hb.
    unfold offset_tag. cbn [strip_prefix].
    rewrite (Ascii.eqb_sym "[" c), Hb. reflexivity.
Qed.

Lemma search_from_no_newline (s : string) :
  mem nl s = false -> search_from false s = None.
Proof.
  induction s as [|c s IH]; intros H; [reflexivity|].
  cbn [mem] in H. apply orb_false_elim in H as [Hc Hs].
  now rewrite search_from_eq, Hc, (IH Hs).
Qed.

(** A tag whose closing bracket is followed by a second closing bracket
    ends the run of tags without an offset tag. *)
Lemma tag_run_doubled (body rest : string) :
  mem "]" body = false ->
  tag_run false ("[[" ++ body ++ "]]" ++ rest) = None.
Proof.
  intros Hb. rewrite tag_run_between.
  change (offset_tag ("[[" ++ body ++ "]]" ++ rest)) with (@None (nat * nat)).
  change ("[[" ++ body ++ "]]" ++ rest)
    with (String "[" (String "[" body ++ String "]" (String "]" rest))).
  cbv iota. change ("[" =? "[")%char with true. cbv iota.
  rewrite tag_run_inside by (cbn [mem]; exact Hb).
  now rewrite tag_run_between.
Qed.

Lemma doubled_brackets_search (body rest : string) :
  mem "]" body = false ->
  mem nl ("[[" ++ body ++ "]]" ++ rest) = false ->
  re_search_offset ("[[" ++ body ++ "]]" ++ rest) = None.
Proof.
  intros Hb Hn. unfold re_search_offset.
  rewrite search_from_eq, (tag_run_doubled body rest Hb).
  change ("[[" ++ body ++ "]]" ++ rest)
    with (String "[" (String "[" (body ++ "]]" ++ rest))) in *.
  change (mem nl (String "[" (String "[" (body ++ "]]" ++ rest))))
    with (("[" =? nl)%char || mem nl (String "[" (body ++ "]]" ++ rest)))
    in Hn.
  apply orb_false_elim in Hn as [_ Hn].
  cbv iota. change ("[" =? nl)%char with false.
  now rewrite (search_from_no_newline _ Hn).
Qed.

(** C4, as amended.  The rewrite returns ["[offset:N]\n"] followed by the
    content, unmodified, for every content in which no line-anchored run
    of bracketed tags immediately followed by an [[offset:...]] tag
    occurs.  That is so for every content none of whose lines begins with
    an opening bracket, which covers content without tags and content
    where offset text follows other text on its line, and for every
    content of one line that begins with a tag in doubled brackets. *)
Theorem update_lrc_offset_prepend (content : string) (N : Z) :
  (~ anchored_offset_tag content ->
   update_lrc_offset content N
   = "[offset:" ++ str_of_int N ++ "]" ++ String nl content)
  /\ (bracket_at_line_start true content = false ->
      ~ anchored_offset_tag content)
  /\ (forall body rest,
        content = "[[" ++ body ++ "]]" ++ rest ->
        mem "]" body = false -> mem nl content = false ->
        ~ anchored_offset_tag content).
Proof.
  split; [|split].
  - intros Hno. unfold update_lrc_offset.
    destruct (re_search_offset content) as [[a e]|] eqn:Hs; [|reflexivity].
    contradiction Hno. exact (re_search_offset_sound content a e Hs).
  - intros Hb Ha. apply re_search_offset_complete in Ha. apply Ha.
    exact (search_from_no_bracket true content Hb).
  - intros body rest -> Hb Hn Ha. apply re_search_offset_complete in Ha.
    apply Ha. exact (doubled_brackets_search body rest Hb Hn).
Qed.

(** No tag at all, an offset tag in the middle of a line, and an offset tag
    inside doubled brackets: none is a line-anchored offset tag. *)
Lemma not_anchored_examples :
  ~ anchored_offset_tag "no tag"
  /\ ~ anchored_offset_tag "Some [offset:200] lrc"
  /\ ~ anchored_offset_tag "[[offset:200]] lrc".
Proof.
  repeat split; intros H; apply re_search_offset_complete in H;
    apply H; reflexivity.
Qed.

Lemma update_lrc_offset_prepend_witness :
  mem "]" "offset:200" = false
  /\ mem nl "[[offset:200]] lrc" = false
  /\ ~ anchored_offset_tag "[[offset:200]] lrc"
  /\ update_lrc_offset "[[offset:200]] lrc" 100
     = "[offset:" ++ str_of_int 100 ++ "]" ++ String nl "[[offset:200]] lrc".
Proof.
  assert (H : ~ anchored_offset_tag "[[offset:200]] lrc")
    by exact (proj2 (proj2 (update_lrc_offset_prepend "[[offset:200]] lrc" 100))
                "offset:200" " lrc" eq_refl eq_refl eq_refl).
  split; [reflexivity|]. split; [reflexivity|]. split; [exact H|].
  exact (proj1 (update_lrc_offset_prepend "[[offset:200]] lrc" 100) H).
Defined.

(** C4, as stated, fails: offset text in the middle of a line and doubled
    brackets at the start of a line do not keep the search from matching,
    because the body of a tag runs to the next closing bracket, over
    opening brackets and newlines.  Both contents are rewritten in
    place. *)
Lemma update_lrc_offset_in_place :
  update_lrc_offset "[[ti:x][offset:200]] lrc" 100
  = "[[ti:x][offset:100]] lrc"
  /\ update_lrc_offset "[[ti:x][offset:200]] lrc" 100
     <> "[offset:100]" ++ String nl "[[ti:x][offset:200]] lrc"
  /\ update_lrc_offset ("[a" ++ String nl "b][offset:200] lrc") 100
     = "[a" ++ String nl "b][offset:100] lrc"
  /\ update_lrc_offset ("[a" ++ String nl "b][offset:200] lrc") 100
     <> "[offset:100]" ++ String nl ("[a" ++ String nl "b][offset:200] lrc").
Proof. repeat split; discriminate. Qed.

End OffsetRewriterFacts.

(** ** The charset normalizer and the content gateway *)

Module GatewayFacts.
Import PyStr PyStrFacts OsPath Urllib Utils OffsetRewriter Lyrics.

Section WithPlatform.
Context {P : Platform}.

(** *** [urlparse] *)

(** The scheme is settled before the network location is looked at. *)
Lemma urlsplit_scheme (url : string) (parts : ParseResult) :
  urlsplit url = Ret parts ->
  scheme parts = fst (split_scheme (remove_unsafe (lstrip_c0 url))).
Proof.
  unfold urlsplit.
  destruct (split_scheme (remove_unsafe (lstrip_c0 url))) as [sch u].
  destruct (split_netloc u) as [net u'].
  destruct (if unbalanced_brackets net then _ else _); [|discriminate].
  cbn [bind].
  destruct (split_first "#" u') as [[[x d] y]|];
    [destruct (split_first "?" x) as [[[? ?] ?]|]
    |destruct (split_first "?" u') as [[[? ?] ?]|]];
    (destruct (_checknetloc net); [|discriminate]);
    cbn [bind]; now intros [= <-].
Qed.

Lemma urlparse_scheme (url : string) (parts : ParseResult) :
  urlparse url = Ret parts ->
  scheme parts = fst (split_scheme (remove_unsafe (lstrip_c0 url))).
Proof.
  unfold urlparse. destruct (urlsplit url) as [r|] eqn:Hr; [|discriminate].
  cbn [bind]. apply urlsplit_scheme in Hr.
  destruct (existsb _ uses_params && mem ";" (path r)).
  - destruct (_splitparams (path r)). now intros [= <-].
  - now intros [= <-].
Qed.

(** The only exception of [urlparse] is the [ValueError] of a malformed
    network location. *)
Lemma urlsplit_raises (url : string) (e : exn) :
  urlsplit url = Raise e -> e = ValueError.
Proof.
  unfold urlsplit.
  destruct (split_scheme (remove_unsafe (lstrip_c0 url))) as [sch u].
  destruct (split_netloc u) as [net u'].
  destruct (unbalanced_brackets net); [now intros [= <-]|].
  destruct (mem "[" net && mem "]" net && negb (check_bracketed_netloc net));
    [now intros [= <-]|].
  cbn [bind].
  assert (Hc : forall r : ParseResult,
             (_ <- _checknetloc net ;; Ret r) = Raise e -> e = ValueError).
  { intros r. unfold _checknetloc.
    destruct ((net =? "")%string || isascii net); [discriminate|].
    destruct (_ =? _)%string; [discriminate|].
    destruct (_ || _); [now intros [= <-]|discriminate]. }
  destruct (split_first "#" u') as [[[x d] y]|];
    [destruct (split_first "?" x) as [[[? ?] ?]|]
    |destruct (split_first "?" u') as [[[? ?] ?]|]];
    apply Hc.
Qed.

Lemma urlparse_raises (url : string) (e : exn) :
  urlparse url = Raise e -> e = ValueError.
Proof.
  unfold urlparse. destruct (urlsplit url) as [r|e'] eqn:Hr.
  - cbn [bind]. destruct (_ && _); [|discriminate].
    now destruct (_splitparams (path r)).
  - cbn [bind]. intros [= <-]. exact (urlsplit_raises _ _ Hr).
Qed.

Lemma scheme_none (rest : string) (parts : ParseResult) :
  urlparse ("none:" ++ rest) = Ret parts -> scheme parts = "none".
Proof. intros H. now rewrite (urlparse_scheme _ _ H). Qed.

Lemma scheme_file (rest : string) (parts : ParseResult) :
  urlparse ("file:" ++ rest) = Ret parts -> scheme parts = "file".
Proof. intros H. now rewrite (urlparse_scheme _ _ H). Qed.

Lemma is_valid_uri_none (rest : string) : is_valid_uri ("none:" ++ rest) = true.
Proof. reflexivity. Qed.

Lemma is_valid_uri_inv (uri : string) :
  is_valid_uri uri = true ->
  exists rest, uri = "file:" ++ rest \/ uri = "none:" ++ rest.
Proof.
  unfold is_valid_uri, SUPPORTED_SCHEMES, existsb, startswith. intros H.
  destruct (strip_prefix ("file" ++ ":") uri) as [r|] eqn:Hf.
  - exists r. left. now apply strip_prefix_inv.
  - destruct (strip_prefix ("none" ++ ":") uri) as [r|] eqn:Hn;
      [|discriminate].
    exists r. right. now apply strip_prefix_inv.
Qed.

(** A URI that passes [is_valid_uri] and that [urlparse] accepts finds its
    handler in both tables. *)
Lemma is_valid_uri_scheme (uri : string) (parts : ParseResult) :
  is_valid_uri uri = true ->
  urlparse uri = Ret parts ->
  scheme parts = "file" \/ scheme parts = "none".
Proof.
  intros H Hp. destruct (is_valid_uri_inv uri H) as [rest [-> | ->]].
  - left. exact (scheme_file _ _ Hp).
  - right. exact (scheme_none _ _ Hp).
Qed.

(** *** [decode_by_charset] *)

(** The function in its three stages: the detection, the choice of the
    codec name, the decoding. *)
Lemma decode_by_charset_stages (content : list byte) :
  decode_by_charset content
  = (encoding <-
       (if negb (truthy (chardet_detect content))
           && (DETECT_CHARSET_GUESS_MIN_LEN <? List.length content)%nat
        then match chardet_detect (retry_slice content) with
             | None => Raise TypeError
             | Some encoding => Ret (Some encoding)
             end
        else Ret (chardet_detect content)) ;;
     match bytes_decode (codec_name encoding) content with
     | Some text => Ret text
     | None => Raise LookupError
     end).
Proof.
  unfold decode_by_charset, retry_slice.
  destruct (negb _ && _); [|reflexivity].
  now destruct (chardet_detect (firstn _ content)).
Qed.

Lemma decode_by_charset_nil : decode_by_charset [] = Ret "".
Proof.
  rewrite decode_by_charset_stages. simpl List.length.
  change (DETECT_CHARSET_GUESS_MIN_LEN <? 0)%nat with false.
  rewrite andb_false_r. cbn [bind]. now rewrite bytes_decode_empty.
Qed.

(** C3.  When the detector determines no encoding on an input of more
    than 40 bytes, nor on the slice the function retries on,
    [decode_by_charset] does not get to its UTF-8 fallback: building the
    log message ['guess encoding from part: ' + encoding] raises
    [TypeError]. *)
Theorem decode_by_charset_undetected (content : list byte) :
  (DETECT_CHARSET_GUESS_MIN_LEN < List.length content)%nat ->
  truthy (chardet_detect content) = false ->
  chardet_detect (retry_slice content) = None ->
  decode_by_charset content = Raise TypeError.
Proof.
  intros Hlen Hfull Hslice. unfold decode_by_charset.
  rewrite Hfull. apply Nat.ltb_lt in Hlen. rewrite Hlen. simpl andb. cbv iota.
  unfold retry_slice in Hslice. rewrite Hslice. reflexivity.
Qed.

(** What [decode_by_charset] raises: the [TypeError] of the log message,
    in that one situation, or the [LookupError] of the codec. *)
Lemma decode_by_charset_raises (content : list byte) (e : exn) :
  decode_by_charset content = Raise e ->
  (e = TypeError
   /\ (DETECT_CHARSET_GUESS_MIN_LEN < List.length content)%nat
   /\ truthy (chardet_detect content) = false
   /\ chardet_detect (retry_slice content) = None)
  \/ e = LookupError.
Proof.
  assert (Hd : forall encoding,
             match bytes_decode (codec_name encoding) content with
             | Some text => Ret text
             | None => Raise LookupError
             end = Raise e -> e = LookupError).
  { intros encoding. destruct (bytes_decode _ content); [discriminate|].
    now intros [= <-]. }
  rewrite decode_by_charset_stages.
  destruct (truthy (chardet_detect content)) eqn:Hfull;
    [cbn [negb andb bind]; intros H; right; exact (Hd _ H)|].
  destruct (DETECT_CHARSET_GUESS_MIN_LEN <? List.length content)%nat eqn:Hlen;
    [|cbn [negb andb bind]; intros H; right; exact (Hd _ H)].
  cbn [negb andb].
  destruct (chardet_detect (retry_slice content)) as [enc|] eqn:Hslice.
  - cbn [bind]. intros H. right. exact (Hd _ H).
  - cbn [bind]. intros [= <-]. left. apply Nat.ltb_lt in Hlen. auto.
Qed.

(** *** [load_from_uri] and [save_to_uri] *)

Lemma load_from_uri_none_scheme (uri : string) (parts : ParseResult)
  (fs : FS) :
  urlparse uri = Ret parts -> scheme parts = "none" ->
  load_from_uri uri fs = Ret (Some "").
Proof.
  intros Hp H. unfold load_from_uri. rewrite Hp. cbn [bind]. rewrite H.
  simpl. now rewrite decode_by_charset_nil.
Qed.

Lemma save_to_uri_none_scheme (uri : string) (parts : ParseResult)
  (content : list byte) (create : bool) (fs : FS) :
  urlparse uri = Ret parts -> scheme parts = "none" ->
  save_to_uri uri content create fs = (Ret true, fs).
Proof. intros Hp H. unfold save_to_uri. now rewrite Hp, H. Qed.

(** A load that returns has parsed its URI. *)
Lemma load_from_uri_parsed (uri : string) (fs : FS) (lrc : option string) :
  load_from_uri uri fs = Ret lrc -> exists parts, urlparse uri = Ret parts.
Proof.
  unfold load_from_uri. destruct (urlparse uri) as [parts|]; [eauto|].
  discriminate.
Qed.

(** C7.  For every URI whose scheme, as [urlparse] reports it, is [none],
    [load_from_uri] returns the empty text whatever the filesystem holds:
    the result is the same on every filesystem state, and loading has no
    state to hand back. *)
Theorem load_from_uri_none (uri : string) (parts : ParseResult) :
  urlparse uri = Ret parts ->
  scheme parts = "none" ->
  forall fs : FS, load_from_uri uri fs = Ret (Some "").
Proof. intros Hp H fs. now apply (load_from_uri_none_scheme uri parts). Qed.

(** C8.  Whenever [load_from_uri] returns a text, the text holds no NUL
    character. *)
Theorem load_from_uri_no_nul (uri : string) (fs : FS) (text : string) :
  load_from_uri uri fs = Ret (Some text) -> mem nul text = false.
Proof.
  unfold load_from_uri.
  destruct (urlparse uri) as [parts|]; [|discriminate]. cbn [bind].
  destruct (URI_LOAD_HANDLERS (scheme parts)) as [handler|];
    [|discriminate].
  destruct (handler parts fs) as [[content|]|]; try discriminate.
  cbn [bind].
  destruct (decode_by_charset content) as [decoded|]; [|discriminate].
  cbn [bind]. intros [= <-]. apply mem_remove.
Qed.

End WithPlatform.

#[local] Existing Instance Demo.platform.

Lemma decode_by_charset_undetected_witness :
  (DETECT_CHARSET_GUESS_MIN_LEN < List.length Demo.raw_bytes)%nat
  /\ truthy (chardet_detect Demo.raw_bytes) = false
  /\ chardet_detect (retry_slice Demo.raw_bytes) = None
  /\ decode_by_charset Demo.raw_bytes = Raise TypeError.
Proof.
  assert (H1 : (DETECT_CHARSET_GUESS_MIN_LEN < List.length Demo.raw_bytes)%nat)
    by (vm_compute; lia).
  assert (H2 : truthy (chardet_detect Demo.raw_bytes) = false) by reflexivity.
  assert (H3 : chardet_detect (retry_slice Demo.raw_bytes) = None)
    by reflexivity.
  split; [exact H1|]. split; [exact H2|]. split; [exact H3|].
  exact (decode_by_charset_undetected Demo.raw_bytes H1 H2 H3).
Defined.

(** [urlparse] lower-cases the scheme and strips leading blanks, so the
    scheme is [none] for more than the URIs that begin with [none:]. *)
Lemma load_from_uri_none_witness :
  exists parts,
    urlparse " NONE:" = Ret parts
    /\ scheme parts = "none"
    /\ load_from_uri " NONE:" Demo.disk = Ret (Some "").
Proof.
  eexists. split; [reflexivity|]. split; [reflexivity|].
  exact (load_from_uri_none " NONE:" _ eq_refl eq_refl Demo.disk).
Defined.

Lemma load_from_uri_no_nul_witness :
  load_from_uri "file:///home/user/.lyrics/nul.lrc" Demo.nul_disk
  = Ret (Some "ab")
  /\ mem nul "ab" = false.
Proof.
  assert (H : load_from_uri "file:///home/user/.lyrics/nul.lrc" Demo.nul_disk
              = Ret (Some "ab")) by reflexivity.
  split; [exact H|].
  exact (load_from_uri_no_nul _ _ _ H).
Defined.

(** [urlparse] on the example platform: a scheme is lower-cased, leading
    blanks are stripped, tabs are deleted, and an unmatched bracket in the
    network location raises [ValueError]. *)
Example urlparse_examples :
  option_map scheme
    (match urlparse "file:///home/user/a.lrc" with
     | Ret r => Some r | Raise _ => None end) = Some "file"
  /\ urlparse "none://[" = Raise ValueError
  /\ urlparse "//[x/a.lrc" = Raise ValueError
  /\ urlparse "file://[::1]/x"
     = Ret {| scheme := "file"; netloc := "[::1]"; path := "/x";
              params := ""; query := ""; fragment := "" |}
  /\ urlparse "/a;b?c#d"
     = Ret {| scheme := ""; netloc := ""; path := "/a";
              params := "b"; query := "c"; fragment := "d" |}.
Proof. repeat split. Qed.

End GatewayFacts.

(** ** Path and URI conversion *)

Module UtilsFacts.
Import PyStr PyStrFacts OsPath Urllib Utils.

Section WithPlatform.
Context {P : Platform}.

Lemma expanduser_no_tilde (path : string) :
  startswith path "~" = false -> expanduser path = path.
Proof.
  destruct path as [|c tail]; [reflexivity|].
  unfold startswith, expanduser. cbn [strip_prefix].
  rewrite (Ascii.eqb_sym c "~").
  destruct ("~" =? c)%char; [discriminate|reflexivity].
Qed.

Lemma isabs_no_tilde (path : string) :
  isabs path = true -> startswith path "~" = false.
Proof.
  destruct path as [|c tail]; [reflexivity|].
  unfold isabs, startswith. cbn [strip_prefix].
  destruct (Ascii.eqb_spec "/" c) as [<-|]; [reflexivity|discriminate].
Qed.

(** What [path2uri] does, case by case: it expands a leading [~] first,
    converts the expanded path to a [file:] URI exactly when the expanded
    path is absolute, and returns the expanded path otherwise.  A path
    that does not begin with [~] is its own expansion. *)
Lemma path2uri_expanded (path : string) :
  (isabs (expanduser path) = true ->
   path2uri path = "file://" ++ pathname2url (expanduser path))
  /\ (isabs (expanduser path) = false -> path2uri path = expanduser path)
  /\ (isabs path = true -> path2uri path = "file://" ++ pathname2url path)
  /\ (isabs path = false -> startswith path "~" = false ->
      path2uri path = path).
Proof.
  unfold path2uri. repeat split.
  - now intros ->.
  - now intros ->.
  - intros H. rewrite (expanduser_no_tilde path (isabs_no_tilde path H)).
    now rewrite H.
  - intros H Ht. rewrite (expanduser_no_tilde path Ht). now rewrite H.
Qed.

(** C6.  A path that does not start with a slash is not always returned
    as it is, which is what the docstring of [path2uri] promises: when the
    path begins with [~] and the home directory it names is absolute,
    [path2uri] converts the expanded path to a [file:] URI. *)
Theorem path2uri_relative_converted (path : string) :
  isabs path = false ->
  isabs (expanduser path) = true ->
  startswith path "~" = true
  /\ path2uri path = "file://" ++ pathname2url (expanduser path)
  /\ path2uri path <> path.
Proof.
  intros Hrel Habs.
  assert (Ht : startswith path "~" = true).
  { destruct (startswith path "~") eqn:Ht; [reflexivity|].
    rewrite (expanduser_no_tilde path Ht) in Habs. congruence. }
  assert (E : path2uri path = "file://" ++ pathname2url (expanduser path))
    by (unfold path2uri; now rewrite Habs).
  split; [exact Ht|]. split; [exact E|].
  intros Heq. rewrite E in Heq. rewrite <- Heq in Ht. discriminate Ht.
Qed.

End WithPlatform.

#[local] Existing Instance Demo.platform.

(** The doctests of [path2uri]; the last path is U+8DEF U+5F84 / U+6587
    U+4EF6 in UTF-8. *)
Example path2uri_doctests :
  path2uri "/path/to/file" = "file:///path/to/file"
  /\ path2uri "file:///path/to/file" = "file:///path/to/file"
  /\ path2uri "invalid/path" = "invalid/path"
  /\ path2uri
       (String "/" (String "232" (String "183" (String "175"
         (String "229" (String "190" (String "132"
           (String "/" (String "230" (String "150" (String "135"
             (String "228" (String "187" (String "182" ""))))))))))))))
     = "file:///%E8%B7%AF%E5%BE%84/%E6%96%87%E4%BB%B6".
Proof. repeat split. Qed.

(** With the home directory [/home/user], the relative path [~/x.lrc]
    comes back as a [file:] URI. *)
Lemma path2uri_relative_converted_witness :
  isabs "~/x.lrc" = false
  /\ isabs (expanduser "~/x.lrc") = true
  /\ path2uri "~/x.lrc" = "file:///home/user/x.lrc"
  /\ path2uri "~/x.lrc" <> "~/x.lrc".
Proof.
  split; [reflexivity|]. split; [reflexivity|].
  exact (proj2 (path2uri_relative_converted "~/x.lrc" eq_refl eq_refl)).
Defined.

End UtilsFacts.

(** ** The resolution engine *)

Module ServiceFacts.
Import PyStr PyStrFacts OsPath Urllib Utils OffsetRewriter Lyrics GatewayFacts.

Section WithPlatform.
Context {P : Platform}.

Lemma option_eqb_refl (a : option string) : option_eqb a a = true.
Proof. destruct a; simpl; [apply String.eqb_refl|reflexivity]. Qed.

Lemma Metadata_eqb_refl (m : Metadata) : Metadata_eqb m m = true.
Proof. unfold Metadata_eqb. now rewrite !option_eqb_refl. Qed.

Lemma find_delete (db : LrcDb.t) (m : Metadata) :
  LrcDb.find (LrcDb.delete db m) m = None.
Proof. unfold LrcDb.find, LrcDb.delete. now rewrite Metadata_eqb_refl. Qed.

Lemma load_from_uri_none_marker (fs : FS) :
  load_from_uri "none:" fs = Ret (Some "").
Proof. now apply (load_from_uri_none_scheme "none:" _ fs eq_refl). Qed.

(** *** [GetRawLyrics] *)

(** Once the recorded source has yielded nothing, [GetRawLyrics] is the
    pattern search. *)
Lemma GetRawLyrics_fallback (self : Service) (metadata : Metadata) (fs : FS)
  (recorded : option string) :
  find_lrc_from_db self metadata = Ret recorded ->
  unloadable recorded fs ->
  GetRawLyrics self metadata fs =
  (uri <- find_lrc_by_pattern metadata fs ;;
   lrc <-
     (match uri with
      | Some (String c u) => load_from_uri (String c u) fs
      | _ => Ret None
      end) ;;
   match lrc, uri with
   | Some lrc, Some uri => Ret (true, uri, lrc)
   | _, _ => Ret (false, "", "")
   end).
Proof.
  intros Hdb H. unfold GetRawLyrics. rewrite Hdb. cbn [bind].
  destruct recorded as [[|c u]|]; try reflexivity.
  destruct H as [H|(u' & [= <-] & H)]; [discriminate|].
  destruct (String.eqb_spec (String c u) "none:") as [E|_].
  - rewrite E, load_from_uri_none_marker in H. discriminate.
  - now rewrite H.
Qed.

(** The resolution order, for loads that return.  A recorded URI that
    loads is returned with its content, whatever the pattern search would
    find; when nothing is recorded or the load of the recorded URI returns
    [None], a pattern-derived file that loads is returned with its
    content; when neither source yields content the result is
    [(False, '', '')]. *)
Lemma GetRawLyrics_resolution (self : Service) (metadata : Metadata)
  (fs : FS) :
  (forall uri lrc,
      find_lrc_from_db self metadata = Ret (Some uri) -> uri <> "" ->
      load_from_uri uri fs = Ret (Some lrc) ->
      GetRawLyrics self metadata fs = Ret (true, uri, lrc))
  /\ (forall recorded,
        find_lrc_from_db self metadata = Ret recorded ->
        unloadable recorded fs ->
        forall uri lrc,
          find_lrc_by_pattern metadata fs = Ret (Some uri) -> uri <> "" ->
          load_from_uri uri fs = Ret (Some lrc) ->
          GetRawLyrics self metadata fs = Ret (true, uri, lrc))
  /\ (forall recorded found,
        find_lrc_from_db self metadata = Ret recorded ->
        unloadable recorded fs ->
        find_lrc_by_pattern metadata fs = Ret found ->
        unloadable found fs ->
        GetRawLyrics self metadata fs = Ret (false, "", "")).
Proof.
  split; [|split].
  - intros uri lrc Hdb Hne Hload. unfold GetRawLyrics. rewrite Hdb.
    cbn [bind].
    destruct uri as [|c u]; [contradiction|].
    destruct (String.eqb_spec (String c u) "none:") as [E|_].
    + rewrite E in *. rewrite load_from_uri_none_marker in Hload.
      now injection Hload as <-.
    + now rewrite Hload.
  - intros recorded Hdb Hun uri lrc Hpat Hne Hload.
    rewrite (GetRawLyrics_fallback self metadata fs recorded Hdb Hun), Hpat.
    cbn [bind].
    destruct uri as [|c u]; [contradiction|]. now rewrite Hload.
  - intros recorded found Hdb Hun Hpat Hfound.
    rewrite (GetRawLyrics_fallback self metadata fs recorded Hdb Hun), Hpat.
    cbn [bind].
    destruct found as [[|c u]|]; try reflexivity.
    destruct Hfound as [H|(u' & [= <-] & H)]; [discriminate|].
    now rewrite H.
Qed.

(** *** [SetLyricContent] *)

(** C9.  [SetLyricContent] deletes the association of the metadata before
    it tries to save, and keeps it deleted whatever the outcome; when it
    returns the empty string, because no candidate could be saved, the
    record that was there before the call is gone and no
    [CurrentLyricsChanged] signal has been emitted. *)
Theorem SetLyricContent_not_atomic (self self' : Service)
  (metadata : Metadata) (content : list byte) (fs fs' : FS)
  (r : result string) :
  SetLyricContent self metadata content fs = (r, self', fs') ->
  _db self' = LrcDb.delete (_db self) metadata
  /\ LrcDb.find (_db self') metadata = None
  /\ (r = Ret "" -> signals self' = signals self).
Proof.
  unfold SetLyricContent.
  destruct (_save_to_patterns metadata (rstrip_nul content) fs)
    as [[uri|e] fs1]; intros [= <- <- <-].
  - destruct uri as [|c u]; simpl.
    + split; [reflexivity|]. split; [apply find_delete|reflexivity].
    + destruct (Metadata_eqb metadata (_metadata self));
        (split; [reflexivity|]; split; [apply find_delete|discriminate]).
  - split; [reflexivity|]. split; [apply find_delete|discriminate].
Qed.

(** *** [SetOffset] *)

(** The error protocol of [SetOffset], stage by stage. *)
Lemma SetOffset_invalid (uri : string) (offset_ms : Z) (fs : FS) :
  is_valid_uri uri = false ->
  SetOffset uri offset_ms fs = (Raise (InvalidUriException uri), fs).
Proof. intros H. unfold SetOffset. now rewrite H. Qed.

Lemma SetOffset_cannot_load (uri : string) (offset_ms : Z) (fs : FS) :
  is_valid_uri uri = true ->
  load_from_uri uri fs = Ret None ->
  SetOffset uri offset_ms fs = (Raise (CannotLoadLrcException uri), fs).
Proof. intros H Hl. unfold SetOffset. now rewrite H, Hl. Qed.

Lemma SetOffset_loaded (uri : string) (offset_ms : Z) (fs : FS)
  (content : string) :
  is_valid_uri uri = true ->
  load_from_uri uri fs = Ret (Some content) ->
  SetOffset uri offset_ms fs
  = match save_to_uri uri
            (encode_utf8 (update_lrc_offset content offset_ms)) true fs with
    | (Ret true, fs') => (Ret tt, fs')
    | (Ret false, fs') => (Raise (CannotSaveLrcException uri), fs')
    | (Raise e, fs') => (Raise e, fs')
    end.
Proof.
  intros H Hl. unfold SetOffset. rewrite H, Hl. simpl negb. cbv iota.
  now destruct (save_to_uri uri _ true fs) as [[[]|e] fs'].
Qed.

(** An exception of the load escapes [SetOffset] as it is. *)
Lemma SetOffset_load_raises (uri : string) (offset_ms : Z) (fs : FS)
  (e : exn) :
  is_valid_uri uri = true ->
  load_from_uri uri fs = Raise e ->
  SetOffset uri offset_ms fs = (Raise e, fs).
Proof. intros H Hl. unfold SetOffset. now rewrite H, Hl. Qed.

(** An exception of the load escapes [GetRawLyrics] too, from either
    stage. *)
Lemma GetRawLyrics_load_raises (self : Service) (metadata : Metadata)
  (fs : FS) (uri : string) (e : exn) :
  find_lrc_from_db self metadata = Ret (Some uri) ->
  uri <> "" -> uri <> "none:" ->
  load_from_uri uri fs = Raise e ->
  GetRawLyrics self metadata fs = Raise e.
Proof.
  intros Hdb Hne Hnone Hl. unfold GetRawLyrics. rewrite Hdb. cbn [bind].
  destruct uri as [|c u]; [contradiction|].
  destruct (String.eqb_spec (String c u) "none:"); [contradiction|].
  now rewrite Hl.
Qed.

(** On a URI that begins with [none:] and that [urlparse] rejects, the
    [ValueError] of [urlparse] escapes from the load, before anything is
    written. *)
Lemma SetOffset_none_rejected (rest : string) (offset_ms : Z) (fs : FS)
  (e : exn) :
  urlparse ("none:" ++ rest) = Raise e ->
  SetOffset ("none:" ++ rest) offset_ms fs = (Raise ValueError, fs).
Proof.
  intros Hp. unfold SetOffset. rewrite is_valid_uri_none. simpl negb.
  cbv iota. pose proof (urlparse_raises _ _ Hp) as He. subst e.
  unfold load_from_uri. now rewrite Hp.
Qed.

(** C10, as amended.  On a URI that begins with [none:], the prefix
    [is_valid_uri] tests, and that [urlparse] accepts, [SetOffset] returns
    normally, so it raises none of its three exceptions, and it hands the
    filesystem back as it was. *)
Theorem SetOffset_none_noop (rest : string) (parts : ParseResult)
  (offset_ms : Z) (fs : FS) :
  urlparse ("none:" ++ rest) = Ret parts ->
  SetOffset ("none:" ++ rest) offset_ms fs = (Ret tt, fs).
Proof.
  intros Hp. unfold SetOffset. rewrite is_valid_uri_none. simpl negb.
  cbv iota.
  rewrite (load_from_uri_none_scheme _ parts fs Hp (scheme_none _ _ Hp)).
  now rewrite (save_to_uri_none_scheme _ parts _ true fs Hp
                 (scheme_none _ _ Hp)).
Qed.

End WithPlatform.

#[local] Existing Instance Demo.platform.

Lemma stale_record_unloadable :
  unloadable (Some "file:///home/user/gone.lrc") Demo.disk.
Proof. right. exists "file:///home/user/gone.lrc". now split. Qed.

(** A stale record does not hide the file the patterns find. *)
Example GetRawLyrics_stale_record :
  find_lrc_from_db Demo.stale_service Demo.song
  = Ret (Some "file:///home/user/gone.lrc")
  /\ load_from_uri "file:///home/user/gone.lrc" Demo.disk = Ret None
  /\ GetRawLyrics Demo.stale_service Demo.song Demo.disk
     = Ret (true, "file:///home/user/.lyrics/Band-Song.lrc", "[ti:Song]").
Proof.
  split; [reflexivity|]. split; [reflexivity|].
  refine (proj1 (proj2 (GetRawLyrics_resolution Demo.stale_service Demo.song
                          Demo.disk))
            _ eq_refl stale_record_unloadable
            "file:///home/user/.lyrics/Band-Song.lrc" "[ti:Song]"
            eq_refl _ eq_refl).
  discriminate.
Qed.

Lemma SetLyricContent_not_atomic_witness :
  LrcDb.find (_db Demo.stale_service) Demo.song = Some "/home/user/gone.lrc"
  /\ exists self',
      SetLyricContent Demo.stale_service Demo.song [x61; x00] Demo.frozen_disk
      = (Ret "", self', Demo.frozen_disk)
      /\ LrcDb.find (_db self') Demo.song = None
      /\ signals self' = signals Demo.stale_service.
Proof.
  split; [reflexivity|].
  exists {| _db := LrcDb.delete (_db Demo.stale_service) Demo.song;
            _metadata := Demo.song; signals := 0 |}.
  assert (H : SetLyricContent Demo.stale_service Demo.song [x61; x00]
                Demo.frozen_disk
              = (Ret "",
                 {| _db := LrcDb.delete (_db Demo.stale_service) Demo.song;
                    _metadata := Demo.song; signals := 0 |},
                 Demo.frozen_disk)) by reflexivity.
  split; [exact H|].
  destruct (SetLyricContent_not_atomic _ _ _ _ _ _ _ H) as (_ & Hf & Hs).
  split; [exact Hf|exact (Hs eq_refl)].
Defined.

Lemma SetOffset_none_noop_witness :
  urlparse "none:"
  = Ret {| scheme := "none"; netloc := ""; Urllib.path := ""; params := "";
           query := ""; fragment := "" |}
  /\ SetOffset "none:" 100 Demo.disk = (Ret tt, Demo.disk).
Proof.
  assert (Hp : urlparse ("none:" ++ "")
               = Ret {| scheme := "none"; netloc := ""; Urllib.path := "";
                        params := ""; query := ""; fragment := "" |})
    by reflexivity.
  split; [exact Hp|].
  exact (SetOffset_none_noop "" _ 100 Demo.disk Hp).
Defined.

(** C1.  The store records, for the track, a [file:] URI whose file is
    longer than 40 bytes and defeats the detector twice, and a file that
    matches the naming patterns exists and loads.  [GetRawLyrics] neither
    returns the recorded file nor falls back to the pattern file: it
    raises the [TypeError] of [decode_by_charset]. *)
Theorem GetRawLyrics_undetected_record :
  find_lrc_from_db Demo.raw_service Demo.song
  = Ret (Some "file:///home/user/.lyrics/raw.lrc")
  /\ find_lrc_by_pattern Demo.song Demo.raw_disk
     = Ret (Some "file:///home/user/.lyrics/Band-Song.lrc")
  /\ load_from_uri "file:///home/user/.lyrics/Band-Song.lrc" Demo.raw_disk
     = Ret (Some "[ti:Song]")
  /\ GetRawLyrics Demo.raw_service Demo.song Demo.raw_disk = Raise TypeError.
Proof. repeat split. Qed.

(** C5.  On a valid [file:] URI whose file is longer than 40 bytes and
    defeats the detector twice, [SetOffset] raises the [TypeError] of
    [decode_by_charset]: none of its three exceptions, and no normal
    return. *)
Theorem SetOffset_undetected_file :
  is_valid_uri "file:///home/user/.lyrics/raw.lrc" = true
  /\ SetOffset "file:///home/user/.lyrics/raw.lrc" 100 Demo.raw_disk
     = (Raise TypeError, Demo.raw_disk).
Proof. split; reflexivity. Qed.

(** C10, as stated, fails in two ways.  [NONE:] has the scheme [none] for
    [urlparse], which lower-cases it, and fails the prefix test of
    [is_valid_uri]: [SetOffset] raises [InvalidUriException].  And
    [none://[] begins with [none:] but is no URI for [urlparse]:
    [SetOffset] does not return, it raises [ValueError]. *)
Lemma SetOffset_none_scheme_invalid :
  (exists parts, urlparse "NONE:" = Ret parts /\ scheme parts = "none")
  /\ SetOffset "NONE:" 100 Demo.disk
     = (Raise (InvalidUriException "NONE:"), Demo.disk)
  /\ is_valid_uri "none://[" = true
  /\ SetOffset "none://[" 100 Demo.disk = (Raise ValueError, Demo.disk).
Proof.
  split; [eexists; split; reflexivity|]. repeat split.
Qed.

End ServiceFacts.

(** ** More on the offset rewriter *)

Module OffsetRewriterMore.
Import PyStr PyStrFacts OffsetRewriter OffsetSpec OffsetRewriterFacts.

Lemma app_inv_head (p a b : string) : p ++ a = p ++ b -> a = b.
Proof. induction p as [|c p IH]; simpl; [auto|]. intros [= H]. auto. Qed.

Lemma app_inv_tail (a b p : string) : a ++ p = b ++ p -> a = b.
Proof.
  revert b. induction a as [|c a IH]; intros [|d b] H; simpl in H.
  - reflexivity.
  - apply (f_equal length) in H. simpl in H. rewrite length_app in H. lia.
  - apply (f_equal length) in H. simpl in H. rewrite length_app in H. lia.
  - injection H as -> H. f_equal. auto.
Qed.

(** [str] is injective on the integers. *)
Lemma str_of_int_inj (A B : Z) : str_of_int A = str_of_int B -> A = B.
Proof.
  unfold str_of_int. intros H. apply DecimalZ.to_int_inj.
  assert (Hn : forall z, Z.to_int z <> Pos Nil /\ Z.to_int z <> Neg Nil).
  { intros [|q|q]; simpl; split; try discriminate;
      intros [= E]; exact (Unsigned.to_uint_nonnil q E). }
  apply (f_equal NilZero.int_of_string) in H.
  rewrite !NilZero.isi in H by apply Hn. now injection H.
Qed.

(** The search succeeds exactly on the contents that hold a line-anchored
    run of bracketed tags followed by an offset tag whose value stays on
    its line. *)
Theorem re_search_offset_iff (content : string) :
  re_search_offset content <> None <-> anchored_offset_tag content.
Proof.
  split.
  - destruct (re_search_offset content) as [[a e]|] eqn:H; [|congruence].
    intros _. exact (re_search_offset_sound content a e H).
  - apply re_search_offset_complete.
Qed.

(** The rewrite is a frame around the value: what stands before and after
    the rendered offset depends on the content alone. *)
Theorem update_lrc_offset_frame (content : string) :
  exists pre post,
    forall N, update_lrc_offset content N = pre ++ str_of_int N ++ post.
Proof.
  destruct (re_search_offset content) as [[a e]|] eqn:Hs.
  - destruct (re_search_offset_found content a e Hs)
      as (pre & v & rest & -> & -> & -> & _).
    exists (pre ++ "[offset:"), (String "]" rest). intros N.
    now rewrite (update_lrc_offset_at pre v rest N Hs), app_assoc.
  - exists "[offset:", (String "]" (String nl content)). intros N.
    unfold update_lrc_offset. now rewrite Hs.
Qed.

(** Two offsets that give the same text are the same offset. *)
Theorem update_lrc_offset_inj (content : string) (A B : Z) :
  update_lrc_offset content A = update_lrc_offset content B -> A = B.
Proof.
  destruct (update_lrc_offset_frame content) as (pre & post & H).
  rewrite !H. intros E.
  apply app_inv_head, app_inv_tail in E. now apply str_of_int_inj.
Qed.

(** After the rewrite, the search finds a tag whose value is the rendered
    offset. *)
Theorem update_lrc_offset_reads_back (content : string) (N : Z) :
  exists a,
    re_search_offset (update_lrc_offset content N)
    = Some (a, a + length (str_of_int N))
    /\ take (length (str_of_int N)) (drop a (update_lrc_offset content N))
       = str_of_int N.
Proof.
  assert (Hat : forall pre rest,
             take (length (str_of_int N))
               (drop (length pre + 8)
                  (pre ++ "[offset:" ++ str_of_int N ++ String "]" rest))
             = str_of_int N).
  { intros pre rest. rewrite <- (app_assoc pre "[offset:").
    replace (length pre + 8) with (length (pre ++ "[offset:") + 0)
      by (rewrite length_app; simpl; lia).
    now rewrite drop_app, drop_0, take_app. }
  destruct (re_search_offset content) as [[a e]|] eqn:Hs.
  - destruct (re_search_offset_found content a e Hs)
      as (pre & v & rest & -> & -> & -> & Hst).
    rewrite (update_lrc_offset_at pre v rest N Hs).
    exists (length pre + 8). split; [|apply Hat].
    apply Hst, clean_str_of_int.
  - unfold update_lrc_offset at 1 2. rewrite Hs.
    exists 8. split.
    + apply (re_search_offset_fresh (str_of_int N) (String nl content)),
        clean_str_of_int.
    + exact (Hat "" (String nl content)).
Qed.

Lemma update_lrc_offset_inj_witness :
  update_lrc_offset "[offset:7]" 12 = update_lrc_offset "[offset:7]" 12
  /\ 12%Z = 12%Z.
Proof.
  split; [reflexivity|].
  exact (update_lrc_offset_inj "[offset:7]" 12 12 eq_refl).
Defined.

End OffsetRewriterMore.

(** ** More on the charset normalizer and the content gateway *)

Module GatewayMore.
Import PyStr PyStrFacts OsPath Urllib Utils OffsetRewriter Lyrics GatewayFacts.

Section WithPlatform.
Context {P : Platform}.

Lemma decode_by_charset_detected (content : list byte) :
  decode_by_charset content
  = if negb (truthy (chardet_detect content))
       && (DETECT_CHARSET_GUESS_MIN_LEN <? List.length content)%nat
       && match chardet_detect (retry_slice content) with
          | None => true
          | Some _ => false
          end
    then Raise TypeError
    else match bytes_decode (codec_name (detected_encoding content))
                 content with
         | Some text => Ret text
         | None => Raise LookupError
         end.
Proof.
  rewrite decode_by_charset_stages. unfold detected_encoding.
  destruct (negb _ && _); [|reflexivity].
  now destruct (chardet_detect (retry_slice content)).
Qed.

(** [decode_by_charset] raises in two situations only.  It raises
    [TypeError] when the input is longer than 40 bytes and the detector
    names no encoding for it, nor any value at all for the retry slice.
    Otherwise it raises [LookupError] when Python has no codec of the
    name the detection has led to. *)
Theorem decode_by_charset_raises_iff (content : list byte) (e : exn) :
  decode_by_charset content = Raise e
  <-> (e = TypeError
       /\ (DETECT_CHARSET_GUESS_MIN_LEN < List.length content)%nat
       /\ truthy (chardet_detect content) = false
       /\ chardet_detect (retry_slice content) = None)
      \/ (e = LookupError
          /\ ~ ((DETECT_CHARSET_GUESS_MIN_LEN < List.length content)%nat
                /\ truthy (chardet_detect content) = false
                /\ chardet_detect (retry_slice content) = None)
          /\ bytes_decode (codec_name (detected_encoding content)) content
             = None).
Proof.
  rewrite decode_by_charset_detected.
  destruct (truthy (chardet_detect content)) eqn:Hfull; cbn [negb andb].
  { destruct (bytes_decode _ content) as [text|] eqn:Hd; split.
    - discriminate.
    - intros [(_ & _ & [=] & _)|(_ & _ & [=])].
    - intros [= <-]. right. repeat split. intros (_ & [=] & _).
    - intros [(_ & _ & [=] & _)|(-> & _)]. reflexivity. }
  destruct (DETECT_CHARSET_GUESS_MIN_LEN <? List.length content)%nat eqn:Hlen;
    cbn [andb].
  - apply Nat.ltb_lt in Hlen.
    destruct (chardet_detect (retry_slice content)) as [enc|] eqn:Hslice.
    + destruct (bytes_decode _ content) as [text|] eqn:Hd; split.
      * discriminate.
      * intros [(_ & _ & _ & [=])|(_ & _ & [=])].
      * intros [= <-]. right. repeat split. intros (_ & _ & [=]).
      * intros [(_ & _ & _ & [=])|(-> & _)]. reflexivity.
    + split.
      * intros [= <-]. left. auto.
      * intros [(-> & _)|(_ & Hn & _)]; [reflexivity|].
        contradiction Hn. auto.
  - apply Nat.ltb_ge in Hlen.
    destruct (bytes_decode _ content) as [text|] eqn:Hd; split.
    + discriminate.
    + intros [(_ & Hl & _)|(_ & _ & [=])]. lia.
    + intros [= <-]. right. repeat split. intros (Hl & _). lia.
    + intros [(_ & Hl & _)|(-> & _)]; [lia|reflexivity].
Qed.

(** When the detection is retried, the slice is a proper prefix of the
    input, of 40 to 100 bytes. *)
Theorem retry_slice_bounds (content : list byte) :
  (DETECT_CHARSET_GUESS_MIN_LEN < List.length content)%nat ->
  (DETECT_CHARSET_GUESS_MIN_LEN <= List.length (retry_slice content)
   <= DETECT_CHARSET_GUESS_MAX_LEN)%nat
  /\ (List.length (retry_slice content) < List.length content)%nat
  /\ exists tail, content = (retry_slice content ++ tail)%list.
Proof.
  unfold retry_slice, DETECT_CHARSET_GUESS_MIN_LEN,
    DETECT_CHARSET_GUESS_MAX_LEN.
  intros Hlen. rewrite length_firstn.
  pose proof (Nat.Div0.div_lt_upper_bound (List.length content) 2
                (List.length content)) as Hhalf.
  assert (List.length content / 2 < List.length content)%nat
    by (apply Hhalf; lia).
  repeat split; try lia.
  eexists. symmetry. apply firstn_skipn.
Qed.

Lemma lower_char_idem (c : ascii) : lower_char (lower_char c) = lower_char c.
Proof. destruct c as [[] [] [] [] [] [] [] []]; reflexivity. Qed.

Lemma lower_idem (s : string) : lower (lower s) = lower s.
Proof.
  induction s as [|c s IH]; simpl; [reflexivity|].
  now rewrite lower_char_idem, IH.
Qed.

Lemma codec_name_shape (detected : option string) :
  lower (codec_name detected) = codec_name detected
  /\ codec_name detected <> "" /\ codec_name detected <> "ascii"
  /\ codec_name detected <> "gb2312" /\ codec_name detected <> "gbk"
  /\ codec_name detected <> "big5".
Proof.
  unfold codec_name.
  set (enc := lower match detected with
                    | Some (String c e) => String c e
                    | _ => "utf-8"
                    end).
  assert (Hl : lower enc = enc) by apply lower_idem.
  assert (Hne : enc <> "") by (subst enc; now destruct detected as [[|c e]|]).
  destruct (String.eqb_spec enc "ascii") as [|Ha];
    [repeat split; discriminate|].
  destruct (String.eqb_spec enc "gb2312") as [|Hg];
    [repeat split; discriminate|].
  destruct (String.eqb_spec enc "gbk") as [|Hk];
    [repeat split; discriminate|].
  cbn [orb].
  destruct (String.eqb_spec enc "big5") as [|Hb];
    [repeat split; discriminate|].
  repeat split; assumption.
Qed.

(** Whatever the detector says, the codec [decode_by_charset] decodes with
    has a lower-case name and is none of [ascii], [gb2312], [gbk] and
    [big5], which it replaces by their supersets. *)
Theorem decode_by_charset_codec (content : list byte) (text : string) :
  decode_by_charset content = Ret text ->
  exists encoding,
    bytes_decode encoding content = Some text
    /\ lower encoding = encoding
    /\ encoding <> "" /\ encoding <> "ascii" /\ encoding <> "gb2312"
    /\ encoding <> "gbk" /\ encoding <> "big5".
Proof.
  rewrite decode_by_charset_detected.
  destruct (_ && _); [discriminate|].
  destruct (bytes_decode _ content) as [t|] eqn:Hd; [|discriminate].
  intros [= <-]. exists (codec_name (detected_encoding content)).
  split; [exact Hd|]. apply codec_name_shape.
Qed.

(** [is_valid_uri] is the prefix test, with the scheme in lower case. *)
Lemma is_valid_uri_iff (uri : string) :
  is_valid_uri uri = true
  <-> exists rest, uri = "file:" ++ rest \/ uri = "none:" ++ rest.
Proof.
  split; [apply is_valid_uri_inv|].
  intros (rest & [-> | ->]); reflexivity.
Qed.

(** What [load_from_uri] raises, and where it comes from: the
    [ValueError] of [urlparse] or of [open], the [TypeError] and the
    [LookupError] of [decode_by_charset], and the [KeyError] of the
    dispatch table. *)
Lemma load_from_uri_raises (uri : string) (fs : FS) (e : exn) :
  load_from_uri uri fs = Raise e ->
  e = ValueError \/ e = TypeError \/ e = LookupError
  \/ exists parts,
      urlparse uri = Ret parts /\ e = KeyError (scheme parts)
      /\ scheme parts <> "file" /\ scheme parts <> "none".
Proof.
  unfold load_from_uri.
  destruct (urlparse uri) as [parts|e'] eqn:Hp; cbn [bind].
  - unfold URI_LOAD_HANDLERS.
    destruct (String.eqb_spec (scheme parts) "file") as [Hf|Hf].
    + unfold _load_from_file.
      destruct (fs_read _ fs) as [content| |]; cbn [bind].
      * destruct (decode_by_charset content) as [t|e'] eqn:Hd; cbn [bind];
          [discriminate|].
        intros [= <-].
        apply decode_by_charset_raises in Hd as [(-> & _)| ->]; auto.
      * discriminate.
      * intros [= <-]. auto.
    + destruct (String.eqb_spec (scheme parts) "none") as [Hn|Hn].
      * cbn [bind]. rewrite decode_by_charset_nil. discriminate.
      * intros [= <-]. right. right. right. now exists parts.
  - intros [= <-]. left. exact (urlparse_raises _ _ Hp).
Qed.

(** [load_from_uri] raises [KeyError] exactly on the URIs that [urlparse]
    accepts and whose scheme is in neither line of its dispatch table, and
    the key is that scheme. *)
Theorem load_from_uri_KeyError (uri : string) (fs : FS) (key : string) :
  load_from_uri uri fs = Raise (KeyError key)
  <-> exists parts,
      urlparse uri = Ret parts
      /\ key = scheme parts /\ key <> "file" /\ key <> "none".
Proof.
  split.
  - intros H. apply load_from_uri_raises in H
      as [[=]|[[=]|[[=]|(parts & Hp & [= ->] & Hf & Hn)]]].
    now exists parts.
  - intros (parts & Hp & -> & Hf & Hn). unfold load_from_uri.
    rewrite Hp. cbn [bind]. unfold URI_LOAD_HANDLERS.
    destruct (String.eqb_spec (scheme parts) "file"); [contradiction|].
    now destruct (String.eqb_spec (scheme parts) "none").
Qed.

(** What [save_to_uri] raises: the [ValueError] of [urlparse], of
    [os.makedirs] or of [open], the [OSError] of [file.write], and the
    [KeyError] of the dispatch table, which leaves the filesystem as it
    was. *)
Lemma save_to_uri_raises (uri : string) (content : list byte) (create : bool)
  (fs fs' : FS) (e : exn) :
  save_to_uri uri content create fs = (Raise e, fs') ->
  e = ValueError \/ e = OSError
  \/ exists parts,
      urlparse uri = Ret parts /\ e = KeyError (scheme parts)
      /\ scheme parts <> "file" /\ scheme parts <> "none" /\ fs' = fs.
Proof.
  unfold save_to_uri.
  destruct (urlparse uri) as [parts|e'] eqn:Hp.
  - unfold URI_SAVE_HANDLERS.
    destruct (String.eqb_spec (scheme parts) "file") as [Hf|Hf].
    + unfold _save_to_file.
      set (p := url2pathname (path parts)).
      assert (Hw : forall f,
                 match fs_open_wb p f with
                 | Done opened =>
                     match fs_write p content opened with
                     | (Done _, f') => (Ret true, f')
                     | (FailsOSError, f') => (Raise OSError, f')
                     | (FailsValueError, f') => (Raise ValueError, f')
                     end
                 | FailsOSError => (Ret false, f)
                 | FailsValueError => (Raise ValueError, f)
                 end = (Raise e, fs') -> e = ValueError \/ e = OSError).
      { intros f. destruct (fs_open_wb p f) as [opened| |].
        - destruct (fs_write p content opened) as [[[]| |] f'];
            [discriminate|now intros [= <- _]; right
            |now intros [= <- _]; left].
        - discriminate.
        - now intros [= <- _]; left. }
      intros H.
      assert (He : e = ValueError \/ e = OSError); [|tauto].
      destruct create; cbn [negb] in H.
      * destruct (fs_isdir (dirname p) fs); cbn [negb] in H;
          [exact (Hw _ H)|].
        destruct (fs_makedirs (dirname p) fs) as [[[]| |] f1];
          [exact (Hw _ H)|discriminate|].
        injection H as <- _. now left.
      * destruct (fs_isfile p fs); cbn [negb] in H;
          [exact (Hw _ H)|discriminate].
    + destruct (String.eqb_spec (scheme parts) "none") as [Hn|Hn];
        [discriminate|].
      intros [= <- <-]. right. right. now exists parts.
  - intros [= <- <-]. left. exact (urlparse_raises _ _ Hp).
Qed.

(** A URI that passes [is_valid_uri] is dispatched to the [file] or the
    [none] handler whenever [urlparse] accepts it, so neither
    [load_from_uri] nor [save_to_uri] raises [KeyError] on it. *)
Theorem is_valid_uri_dispatch (uri : string) :
  is_valid_uri uri = true ->
  (forall parts,
      urlparse uri = Ret parts ->
      scheme parts = "file" \/ scheme parts = "none")
  /\ (forall fs key, load_from_uri uri fs <> Raise (KeyError key))
  /\ (forall content create fs key,
         fst (save_to_uri uri content create fs) <> Raise (KeyError key)).
Proof.
  intros H. split; [|split].
  - intros parts. now apply is_valid_uri_scheme.
  - intros fs key Hl. apply load_from_uri_raises in Hl
      as [[=]|[[=]|[[=]|(parts & Hp & _ & Hf & Hn)]]].
    destruct (is_valid_uri_scheme uri parts H Hp); contradiction.
  - intros content create fs key Hs.
    destruct (save_to_uri uri content create fs) as [r f'] eqn:E.
    cbn [fst] in Hs. subst r. apply save_to_uri_raises in E
      as [[=]|[[=]|(parts & Hp & _ & Hf & Hn & _)]].
    destruct (is_valid_uri_scheme uri parts H Hp); contradiction.
Qed.

(** On a filesystem that reads back what was written, a successful save to
    a [file:] URI followed by a load of the same URI yields the saved
    bytes as [decode_by_charset] decodes them, NULs removed. *)
Theorem save_then_load (uri : string) (parts : ParseResult)
  (content : list byte) (create : bool) (fs fs' : FS) :
  (forall path bytes f opened f',
      fs_open_wb path f = Done opened ->
      fs_write path bytes opened = (Done tt, f') ->
      fs_read path f' = Done bytes) ->
  urlparse uri = Ret parts ->
  scheme parts = "file" ->
  save_to_uri uri content create fs = (Ret true, fs') ->
  load_from_uri uri fs'
  = (text <- decode_by_charset content ;; Ret (Some (remove nul text))).
Proof.
  intros Hrw Hp Hs. unfold save_to_uri, load_from_uri. rewrite Hp.
  cbn [bind]. rewrite Hs.
  change (URI_SAVE_HANDLERS "file") with (Some _save_to_file).
  change (URI_LOAD_HANDLERS "file") with (Some _load_from_file).
  cbn [bind]. unfold _save_to_file, _load_from_file.
  set (p := url2pathname (path parts)).
  assert (Hw : forall f,
             match fs_open_wb p f with
             | Done opened =>
                 match fs_write p content opened with
                 | (Done _, f') => (Ret true, f')
                 | (FailsOSError, f') => (Raise OSError, f')
                 | (FailsValueError, f') => (Raise ValueError, f')
                 end
             | FailsOSError => (Ret false, f)
             | FailsValueError => (Raise ValueError, f)
             end = (Ret true, fs') -> fs_read p fs' = Done content).
  { intros f. destruct (fs_open_wb p f) as [opened| |] eqn:Eo;
      try discriminate.
    destruct (fs_write p content opened) as [[[]| |] f'] eqn:Ew;
      try discriminate.
    intros [= <-]. exact (Hrw _ _ _ _ _ Eo Ew). }
  intros H.
  assert (Hr : fs_read p fs' = Done content).
  { destruct create; cbn [negb] in H.
    - destruct (fs_isdir (dirname p) fs); cbn [negb] in H;
        [exact (Hw _ H)|].
      destruct (fs_makedirs (dirname p) fs) as [[[]| |] f1];
        [exact (Hw _ H)|discriminate|discriminate].
    - destruct (fs_isfile p fs); cbn [negb] in H;
        [exact (Hw _ H)|discriminate]. }
  cbv zeta. now rewrite Hr.
Qed.

(** A save to a URI with the scheme [none] reports success and keeps
    nothing: the filesystem is as before and a load yields the empty
    text. *)
Lemma none_scheme_keeps_nothing (uri : string) (parts : ParseResult)
  (content : list byte) (create : bool) (fs : FS) :
  urlparse uri = Ret parts ->
  scheme parts = "none" ->
  save_to_uri uri content create fs = (Ret true, fs)
  /\ load_from_uri uri fs = Ret (Some "").
Proof.
  intros Hp H. split.
  - now apply (save_to_uri_none_scheme uri parts).
  - now apply (load_from_uri_none_scheme uri parts).
Qed.

(** A save that fails without having had to make directories leaves the
    filesystem as it was. *)
Theorem failed_save_keeps_fs (uri : string) (parts : ParseResult)
  (content : list byte) (create : bool) (fs fs' : FS) :
  urlparse uri = Ret parts ->
  save_to_uri uri content create fs = (Ret false, fs') ->
  create = false
  \/ fs_isdir (dirname (url2pathname (path parts))) fs = true ->
  fs' = fs.
Proof.
  intros Hp. unfold save_to_uri, URI_SAVE_HANDLERS. rewrite Hp.
  destruct (scheme parts =? "file")%string.
  - unfold _save_to_file.
    set (p := url2pathname (path parts)).
    assert (Hw : match fs_open_wb p fs with
                 | Done opened =>
                     match fs_write p content opened with
                     | (Done _, f') => (Ret true, f')
                     | (FailsOSError, f') => (Raise OSError, f')
                     | (FailsValueError, f') => (Raise ValueError, f')
                     end
                 | FailsOSError => (Ret false, fs)
                 | FailsValueError => (Raise ValueError, fs)
                 end = (Ret false, fs') -> fs' = fs).
    { destruct (fs_open_wb p fs) as [opened| |]; try discriminate.
      - now destruct (fs_write p content opened) as [[[]| |] f'].
      - now intros [= <-]. }
    intros H [-> | Hd]; cbn [negb] in H.
    + destruct (fs_isfile p fs); cbn [negb] in H;
        [exact (Hw H)|now injection H].
    + destruct create; cbn [negb] in H.
      * rewrite Hd in H. cbn [negb] in H. exact (Hw H).
      * destruct (fs_isfile p fs); cbn [negb] in H;
          [exact (Hw H)|now injection H].
  - destruct (scheme parts =? "none")%string; discriminate.
Qed.

End WithPlatform.

#[local] Existing Instance Demo.platform.

Lemma demo_read_write (path : string) (bytes : list byte)
  (f opened f' : Demo.Disk) :
  Demo.open_wb path f = Done opened ->
  Demo.write path bytes opened = (Done tt, f') ->
  Demo.read path f' = Done bytes.
Proof.
  unfold Demo.open_wb, Demo.write, Demo.read.
  destruct (mem nul path); [discriminate|].
  destruct (_ || _); [discriminate|]. intros [= <-].
  destruct bytes as [|b bytes].
  - intros [= <-]. simpl. now rewrite String.eqb_refl.
  - destruct (Demo.full _); [discriminate|]. intros [= <-]. simpl.
    now rewrite String.eqb_refl.
Qed.

(** The byte order mark [FE FF 00 00] leads to a codec name Python does
    not know. *)
Example decode_by_charset_unknown_codec :
  chardet_detect DemoMore.bom_bytes = Some "X-ISO-10646-UCS-4-3412"
  /\ decode_by_charset DemoMore.bom_bytes = Raise LookupError.
Proof. split; reflexivity. Qed.

Lemma retry_slice_bounds_witness :
  (DETECT_CHARSET_GUESS_MIN_LEN < List.length Demo.raw_bytes)%nat
  /\ (DETECT_CHARSET_GUESS_MIN_LEN <= List.length (retry_slice Demo.raw_bytes)
      <= DETECT_CHARSET_GUESS_MAX_LEN)%nat.
Proof.
  assert (H : (DETECT_CHARSET_GUESS_MIN_LEN < List.length Demo.raw_bytes)%nat)
    by (vm_compute; lia).
  split; [exact H|].
  exact (proj1 (retry_slice_bounds Demo.raw_bytes H)).
Defined.

Lemma decode_by_charset_codec_witness :
  decode_by_charset Demo.lrc_bytes = Ret "[ti:Song]"
  /\ exists encoding,
      bytes_decode encoding Demo.lrc_bytes = Some "[ti:Song]"
      /\ lower encoding = encoding
      /\ encoding <> "" /\ encoding <> "ascii" /\ encoding <> "gb2312"
      /\ encoding <> "gbk" /\ encoding <> "big5".
Proof.
  split; [reflexivity|].
  exact (decode_by_charset_codec Demo.lrc_bytes "[ti:Song]" eq_refl).
Defined.

Lemma is_valid_uri_dispatch_witness :
  is_valid_uri "file:///home/user/.lyrics/Band-Song.lrc" = true
  /\ forall key,
      load_from_uri "file:///home/user/.lyrics/Band-Song.lrc" Demo.disk
      <> Raise (KeyError key).
Proof.
  split; [reflexivity|].
  exact (proj1 (proj2 (is_valid_uri_dispatch
                         "file:///home/user/.lyrics/Band-Song.lrc" eq_refl))
           Demo.disk).
Defined.

Lemma save_then_load_witness :
  let uri := "file:///home/user/.lyrics/New%20Song.lrc" in
  let path := "/home/user/.lyrics/New Song.lrc" in
  let fs' := Demo.put path Demo.lrc_bytes (Demo.put path [] Demo.disk) in
  save_to_uri uri Demo.lrc_bytes true Demo.disk = (Ret true, fs')
  /\ load_from_uri uri fs'
     = (text <- decode_by_charset Demo.lrc_bytes ;;
        Ret (Some (remove nul text)))
  /\ load_from_uri uri fs' = Ret (Some "[ti:Song]").
Proof.
  intros uri path fs'.
  assert (Hp : urlparse uri
               = Ret {| scheme := "file"; netloc := "";
                        Urllib.path := "/home/user/.lyrics/New%20Song.lrc";
                        params := ""; query := ""; fragment := "" |})
    by reflexivity.
  assert (Hs : save_to_uri uri Demo.lrc_bytes true Demo.disk = (Ret true, fs'))
    by reflexivity.
  split; [exact Hs|]. split; [|reflexivity].
  exact (save_then_load uri _ Demo.lrc_bytes true Demo.disk fs'
           demo_read_write Hp eq_refl Hs).
Defined.

Lemma failed_save_keeps_fs_witness :
  let uri := "file:///home/user/.lyrics/Band-Song.lrc" in
  save_to_uri uri [] true Demo.frozen_disk = (Ret false, Demo.frozen_disk)
  /\ fs_isdir (dirname (url2pathname "/home/user/.lyrics/Band-Song.lrc"))
       Demo.frozen_disk = true
  /\ Demo.frozen_disk = Demo.frozen_disk.
Proof.
  intros uri.
  assert (Hp : urlparse uri
               = Ret {| scheme := "file"; netloc := "";
                        Urllib.path := "/home/user/.lyrics/Band-Song.lrc";
                        params := ""; query := ""; fragment := "" |})
    by reflexivity.
  assert (Hs : save_to_uri uri [] true Demo.frozen_disk
               = (Ret false, Demo.frozen_disk)) by reflexivity.
  assert (Hd : fs_isdir
                 (dirname (url2pathname "/home/user/.lyrics/Band-Song.lrc"))
                 Demo.frozen_disk = true) by reflexivity.
  split; [exact Hs|]. split; [exact Hd|].
  exact (failed_save_keeps_fs uri _ [] true Demo.frozen_disk
           Demo.frozen_disk Hp Hs (or_intror Hd)).
Defined.

End GatewayMore.

(** ** More on the pattern loops and the resolution engine *)

Module ServiceMore.
Import PyStr PyStrFacts OsPath Urllib Utils OffsetRewriter Lyrics LyricsSpec.
Import GatewayFacts GatewayMore ServiceFacts.

Section WithPlatform.
Context {P : Platform}.

(** *** [_expand_patterns] *)

Lemma first_existing_sound (path : string) (file_pats : list string)
  (metadata : Metadata) (fs : FS) (p : string) :
  first_existing path file_pats metadata fs = Some p ->
  fs_isfile p fs = true
  /\ exists file_pat filename,
      In file_pat file_pats
      /\ expand_file file_pat metadata = Some filename
      /\ p = join path (filename ++ ".lrc").
Proof.
  induction file_pats as [|fp rest IH]; simpl; [discriminate|].
  destruct (expand_file fp metadata) as [filename|] eqn:He.
  - destruct (fs_isfile (join path (filename ++ ".lrc")) fs) eqn:Hf.
    + intros [= <-]. split; [exact Hf|]. exists fp, filename. auto.
    + intros H. destruct (IH H) as (Hp & fp' & fn & Hin & Hx & ->).
      split; [exact Hp|]. exists fp', fn. auto.
  - intros H. destruct (IH H) as (Hp & fp' & fn & Hin & Hx & ->).
    split; [exact Hp|]. exists fp', fn. auto.
Qed.

Lemma first_existing_none (path : string) (file_pats : list string)
  (metadata : Metadata) (fs : FS) :
  first_existing path file_pats metadata fs = None ->
  forall file_pat filename,
    In file_pat file_pats ->
    expand_file file_pat metadata = Some filename ->
    fs_isfile (join path (filename ++ ".lrc")) fs = false.
Proof.
  induction file_pats as [|fp rest IH]; simpl; [contradiction|].
  intros H file_pat filename [<-|Hin] Hx.
  - rewrite Hx in H. now destruct (fs_isfile _ fs).
  - apply (IH) with (file_pat := file_pat); try assumption.
    destruct (expand_file fp metadata); [|exact H].
    now destruct (fs_isfile _ fs).
Qed.

Lemma expand_patterns_from_sound (path_pats : list string)
  (metadata : Metadata) (fs : FS) (p : string) :
  expand_patterns_from path_pats metadata fs = Some p ->
  candidate_of path_pats file_patterns metadata p /\ fs_isfile p fs = true.
Proof.
  induction path_pats as [|pp rest IH]; simpl; [discriminate|].
  assert (Hrest : expand_patterns_from rest metadata fs = Some p ->
                  candidate_of (pp :: rest) file_patterns metadata p
                  /\ fs_isfile p fs = true).
  { intros H. destruct (IH H) as ((a & b & c & d & Ha & Hb) & Hf).
    split; [|exact Hf]. exists a, b, c, d. simpl. tauto. }
  destruct (expand_path pp metadata) as [path|] eqn:He; [|exact Hrest].
  destruct (first_existing path file_patterns metadata fs) as [q|] eqn:Hq;
    [|exact Hrest].
  intros [= <-].
  destruct (first_existing_sound _ _ _ _ _ Hq) as (Hf & fp & fn & Hin & Hx & E).
  split; [|exact Hf]. exists pp, fp, path, fn. simpl. auto.
Qed.

Lemma expand_patterns_from_none (path_pats : list string)
  (metadata : Metadata) (fs : FS) :
  expand_patterns_from path_pats metadata fs = None ->
  forall p, candidate_of path_pats file_patterns metadata p ->
            fs_isfile p fs = false.
Proof.
  induction path_pats as [|pp rest IH]; simpl.
  - intros _ p (a & b & c & d & [] & _).
  - intros H p (a & b & c & d & [<-|Hin] & Hb & Hc & Hd & ->).
    + rewrite Hc in H.
      destruct (first_existing c file_patterns metadata fs) eqn:Hq;
        [discriminate|].
      exact (first_existing_none _ _ _ _ Hq b d Hb Hd).
    + apply IH.
      * destruct (expand_path pp metadata); [|exact H].
        now destruct (first_existing _ file_patterns metadata fs).
      * exists a, b, c, d. auto.
Qed.

(** A path [_expand_patterns] returns is a file, and is formed from a
    configured path pattern and a configured file pattern that both
    expand, with the extension [.lrc]. *)
Theorem expand_patterns_found (metadata : Metadata) (fs : FS) (p : string) :
  _expand_patterns metadata fs = Some p ->
  candidate metadata p /\ fs_isfile p fs = true.
Proof. apply expand_patterns_from_sound. Qed.

(** [_expand_patterns] returns [None] exactly when no path the patterns
    form is a file. *)
Theorem expand_patterns_none_iff (metadata : Metadata) (fs : FS) :
  _expand_patterns metadata fs = None
  <-> forall p, candidate metadata p -> fs_isfile p fs = false.
Proof.
  split; [apply expand_patterns_from_none|].
  intros H. destruct (_expand_patterns metadata fs) as [p|] eqn:E;
    [|reflexivity].
  destruct (expand_patterns_from_sound _ _ _ _ E) as (Hc & Hf).
  rewrite (H p Hc) in Hf. discriminate.
Qed.

(** *** [_save_to_patterns] *)

Lemma first_saved_cases (path : string) (file_pats : list string)
  (metadata : Metadata) (content : list byte) (fs fs' : FS)
  (r : result (option string)) :
  first_saved path file_pats metadata content fs = (r, fs') ->
  match r with
  | Raise e =>
      exists file_pat filename fs0,
        In file_pat file_pats
        /\ expand_file file_pat metadata = Some filename
        /\ save_to_uri (path2uri (join path (filename ++ ".lrc")))
             content true fs0 = (Raise e, fs')
  | Ret (Some uri) =>
      exists file_pat filename fs0,
        In file_pat file_pats
        /\ expand_file file_pat metadata = Some filename
        /\ uri = path2uri (join path (filename ++ ".lrc"))
        /\ save_to_uri uri content true fs0 = (Ret true, fs')
  | Ret None => True
  end.
Proof.
  revert fs. induction file_pats as [|fp rest IH]; simpl; intros fs.
  - now intros [= <- <-].
  - assert (Hrest : forall f,
                    first_saved path rest metadata content f = (r, fs') ->
                    match r with
                    | Raise e =>
                        exists file_pat filename fs0,
                          In file_pat (fp :: rest)
                          /\ expand_file file_pat metadata = Some filename
                          /\ save_to_uri
                               (path2uri (join path (filename ++ ".lrc")))
                               content true fs0 = (Raise e, fs')
                    | Ret (Some uri) =>
                        exists file_pat filename fs0,
                          In file_pat (fp :: rest)
                          /\ expand_file file_pat metadata = Some filename
                          /\ uri = path2uri (join path (filename ++ ".lrc"))
                          /\ save_to_uri uri content true fs0 = (Ret true, fs')
                    | Ret None => True
                    end).
    { intros f H; apply IH in H; destruct r as [[uri|]|e]; auto;
        destruct H as (a & b & c & Hin & H); exists a, b, c; simpl; tauto. }
    destruct (expand_file fp metadata) as [filename|] eqn:He;
      [|apply Hrest].
    destruct (save_to_uri _ content true fs) as [[[]|e] f1] eqn:Hs.
    + intros [= <- <-]. exists fp, filename, fs. simpl. auto.
    + apply Hrest.
    + intros [= <- <-]. exists fp, filename, fs. simpl. auto.
Qed.

Lemma save_to_patterns_from_cases (path_pats : list string)
  (metadata : Metadata) (content : list byte) (fs fs' : FS)
  (r : result string) :
  save_to_patterns_from path_pats metadata content fs = (r, fs') ->
  match r with
  | Raise e =>
      exists p fs0,
        candidate_of path_pats file_patterns metadata p
        /\ save_to_uri (path2uri p) content true fs0 = (Raise e, fs')
  | Ret uri =>
      uri = ""
      \/ exists p fs0,
          candidate_of path_pats file_patterns metadata p
          /\ uri = path2uri p
          /\ save_to_uri uri content true fs0 = (Ret true, fs')
  end.
Proof.
  revert fs. induction path_pats as [|pp rest IH]; simpl; intros fs.
  - intros [= <- <-]. now left.
  - assert (Hrest : forall f,
               save_to_patterns_from rest metadata content f = (r, fs') ->
               match r with
               | Raise e =>
                   exists p fs0,
                     candidate_of (pp :: rest) file_patterns metadata p
                     /\ save_to_uri (path2uri p) content true fs0
                        = (Raise e, fs')
               | Ret uri =>
                   uri = ""
                   \/ exists p fs0,
                       candidate_of (pp :: rest) file_patterns metadata p
                       /\ uri = path2uri p
                       /\ save_to_uri uri content true fs0 = (Ret true, fs')
               end).
    { intros f H. apply IH in H. destruct r as [uri|e].
      - destruct H as [H|(p & f0 & (a & b & c & d & Hc) & H)]; [now left|].
        right. exists p, f0. split; [|exact H].
        exists a, b, c, d. simpl. tauto.
      - destruct H as (p & f0 & (a & b & c & d & Hc) & H).
        exists p, f0. split; [|exact H].
        exists a, b, c, d. simpl. tauto. }
    destruct (expand_path pp metadata) as [path|] eqn:He; [|apply Hrest].
    destruct (first_saved path file_patterns metadata content fs)
      as [[[uri|]|e] f1] eqn:Hs.
    + intros [= <- <-]. apply first_saved_cases in Hs
        as (fp & fn & f0 & Hin & Hx & Hu & Hsave).
      right. exists (join path (fn ++ ".lrc")), f0. split; [|auto].
      exists pp, fp, path, fn. simpl. auto.
    + apply Hrest.
    + intros [= <- <-]. apply first_saved_cases in Hs
        as (fp & fn & f0 & Hin & Hx & Hsave).
      exists (join path (fn ++ ".lrc")), f0. split; [|exact Hsave].
      exists pp, fp, path, fn. simpl. auto.
Qed.

(** A non-empty URI [_save_to_patterns] returns is [path2uri] of a path
    the patterns form, and the filesystem it hands back is the one the
    successful [save_to_uri] on that URI left. *)
Theorem save_to_patterns_saved (metadata : Metadata) (content : list byte)
  (fs fs' : FS) (uri : string) :
  _save_to_patterns metadata content fs = (Ret uri, fs') ->
  uri <> "" ->
  exists p fs0,
    candidate metadata p /\ uri = path2uri p
    /\ save_to_uri uri content true fs0 = (Ret true, fs').
Proof.
  intros H Hne. apply save_to_patterns_from_cases in H as [H|H];
    [contradiction|exact H].
Qed.

(** A [PatternException] never surfaces: an exception that escapes
    [_save_to_patterns] was raised by [save_to_uri] on the URI of a path
    the patterns form, and the filesystem handed back is the one that
    call left. *)
Theorem save_to_patterns_raises (metadata : Metadata) (content : list byte)
  (fs fs' : FS) (e : exn) :
  _save_to_patterns metadata content fs = (Raise e, fs') ->
  exists p fs0,
    candidate metadata p
    /\ save_to_uri (path2uri p) content true fs0 = (Raise e, fs').
Proof. intros H. exact (save_to_patterns_from_cases _ _ _ _ _ _ H). Qed.

Lemma first_saved_no_file (path : string) (file_pats : list string)
  (metadata : Metadata) (content : list byte) (fs : FS) :
  (forall fp, In fp file_pats -> expand_file fp metadata = None) ->
  first_saved path file_pats metadata content fs = (Ret None, fs).
Proof.
  induction file_pats as [|fp rest IH]; simpl; intros H; [reflexivity|].
  rewrite (H fp (or_introl eq_refl)). apply IH. auto.
Qed.

Lemma save_to_patterns_from_no_candidate (path_pats file_pats : list string)
  (metadata : Metadata) (content : list byte) (fs : FS) :
  file_pats = file_patterns ->
  (forall p, ~ candidate_of path_pats file_pats metadata p) ->
  save_to_patterns_from path_pats metadata content fs = (Ret "", fs).
Proof.
  intros ->. induction path_pats as [|pp rest IH]; simpl; intros H;
    [reflexivity|].
  assert (Hrest : save_to_patterns_from rest metadata content fs
                  = (Ret "", fs)).
  { apply IH. intros p (a & b & c & d & Hc). apply (H p).
    exists a, b, c, d. simpl. tauto. }
  destruct (expand_path pp metadata) as [path|] eqn:He; [|exact Hrest].
  rewrite first_saved_no_file; [exact Hrest|].
  intros fp Hin. destruct (expand_file fp metadata) as [fn|] eqn:Hx;
    [|reflexivity].
  exfalso. apply (H (join path (fn ++ ".lrc"))).
  exists pp, fp, path, fn. simpl. auto.
Qed.

(** When the patterns form no path at all, because the lists are empty or
    the metadata lacks what they refer to, [_save_to_patterns] returns the
    empty string and does not touch the filesystem. *)
Theorem save_to_patterns_no_candidate (metadata : Metadata)
  (content : list byte) (fs : FS) :
  (forall p, ~ candidate metadata p) ->
  _save_to_patterns metadata content fs = (Ret "", fs).
Proof. now apply save_to_patterns_from_no_candidate. Qed.

(** *** [GetRawLyrics] *)

Lemma ensure_uri_scheme_raises (uri : option string) (e : exn) :
  ensure_uri_scheme uri = Raise e -> e = ValueError.
Proof.
  destruct uri as [[|c u]|]; try discriminate. unfold ensure_uri_scheme.
  destruct (urlparse (String c u)) as [parts|e'] eqn:Hp; cbn [bind].
  - now destruct (scheme parts =? "")%string.
  - intros [= <-]. exact (urlparse_raises _ _ Hp).
Qed.

Lemma find_lrc_from_db_raises (self : Service) (metadata : Metadata)
  (e : exn) :
  find_lrc_from_db self metadata = Raise e -> e = ValueError.
Proof.
  unfold find_lrc_from_db.
  destruct (LrcDb.find (_db self) metadata) as [[|c u]|] eqn:Hf;
    try discriminate.
  apply ensure_uri_scheme_raises.
Qed.

Lemma loaded_text_no_nul (uri : string) (fs : FS) (text : string) :
  load_from_uri uri fs = Ret (Some text) -> mem nul text = false.
Proof.
  unfold load_from_uri.
  destruct (urlparse uri) as [parts|]; [|discriminate]. cbn [bind].
  destruct (URI_LOAD_HANDLERS _) as [h|]; [|discriminate].
  destruct (h _ fs) as [[c|]|]; try discriminate. cbn [bind].
  destruct (decode_by_charset c); [|discriminate].
  cbn [bind]. intros [= <-]. apply mem_remove.
Qed.

(** What [GetRawLyrics] returns is well formed: a miss carries an empty
    URI and an empty text; a hit carries a non-empty URI and a text
    without NUL. *)
Theorem GetRawLyrics_result (self : Service) (metadata : Metadata) (fs : FS)
  (found : bool) (uri content : string) :
  GetRawLyrics self metadata fs = Ret (found, uri, content) ->
  (found = false -> uri = "" /\ content = "")
  /\ (found = true -> uri <> "" /\ mem nul content = false).
Proof.
  assert (Hhit : forall c u lrc,
             load_from_uri (String c u) fs = Ret (Some lrc) ->
             Ret (true, String c u, lrc) = Ret (found, uri, content) ->
             (found = false -> uri = "" /\ content = "")
             /\ (found = true -> uri <> "" /\ mem nul content = false)).
  { intros c u lrc Hl [= <- <- <-]. split; [discriminate|]. intros _.
    split; [discriminate|]. exact (loaded_text_no_nul _ _ _ Hl). }
  assert (Hmiss : Ret (false, "", "") = Ret (found, uri, content) ->
                  (found = false -> uri = "" /\ content = "")
                  /\ (found = true -> uri <> "" /\ mem nul content = false)).
  { intros [= <- <- <-]. split; [auto|discriminate]. }
  assert (Hpat : (pattern <- find_lrc_by_pattern metadata fs ;;
                  lrc <-
                    (match pattern with
                     | Some (String c u) => load_from_uri (String c u) fs
                     | _ => Ret None
                     end) ;;
                  match lrc, pattern with
                  | Some lrc, Some uri => Ret (true, uri, lrc)
                  | _, _ => Ret (false, "", "")
                  end) = Ret (found, uri, content) ->
                 (found = false -> uri = "" /\ content = "")
                 /\ (found = true -> uri <> "" /\ mem nul content = false)).
  { destruct (find_lrc_by_pattern metadata fs) as [[[|c u]|]|];
      cbn [bind]; auto; [|discriminate].
    destruct (load_from_uri (String c u) fs) as [[lrc|]|] eqn:Hl; cbn [bind];
      [eauto|auto|discriminate]. }
  unfold GetRawLyrics.
  destruct (find_lrc_from_db self metadata) as [[[|c u]|]|]; cbn [bind];
    [exact Hpat| |exact Hpat|discriminate].
  destruct (String.eqb_spec (String c u) "none:") as [E|_].
  - cbn [bind]. intros [= <- <- <-]. split; [discriminate|]. intros _.
    split; [discriminate|reflexivity].
  - destruct (load_from_uri (String c u) fs) as [[lrc|]|] eqn:Hl;
      cbn [bind]; [eauto|exact Hpat|discriminate].
Qed.

(** A record with the empty URI marks the track as having no lyrics:
    [GetRawLyrics] answers [(True, 'none:', '')] without looking at the
    filesystem, whatever file the patterns would find. *)
Theorem GetRawLyrics_marked_absent (self : Service) (metadata : Metadata) :
  LrcDb.find (_db self) metadata = Some "" ->
  forall fs : FS, GetRawLyrics self metadata fs = Ret (true, "none:", "").
Proof.
  intros H fs. unfold GetRawLyrics, find_lrc_from_db. now rewrite H.
Qed.

(** [GetRawLyrics] raises none of the exceptions the module declares and
    lets no [OSError] of the filesystem through: what escapes it is the
    [ValueError] of [urlparse] or of [open], the [TypeError] or the
    [LookupError] of the decoder, or the [KeyError] of a URI without a
    load handler. *)
Theorem GetRawLyrics_raises (self : Service) (metadata : Metadata) (fs : FS)
  (e : exn) :
  GetRawLyrics self metadata fs = Raise e ->
  e = ValueError \/ e = TypeError \/ e = LookupError
  \/ exists key, e = KeyError key /\ key <> "file" /\ key <> "none".
Proof.
  assert (Hload : forall uri,
             load_from_uri uri fs = Raise e ->
             e = ValueError \/ e = TypeError \/ e = LookupError
             \/ exists key,
                 e = KeyError key /\ key <> "file" /\ key <> "none").
  { intros uri H. apply load_from_uri_raises in H
      as [->|[->|[->|(parts & _ & -> & Hf & Hn)]]]; auto.
    right. right. right. now exists (scheme parts). }
  assert (Hpat : (pattern <- find_lrc_by_pattern metadata fs ;;
                  lrc <-
                    (match pattern with
                     | Some (String c u) => load_from_uri (String c u) fs
                     | _ => Ret None
                     end) ;;
                  match lrc, pattern with
                  | Some lrc, Some uri => Ret (true, uri, lrc)
                  | _, _ => Ret (false, "", "")
                  end) = Raise e ->
                 e = ValueError \/ e = TypeError \/ e = LookupError
                 \/ exists key,
                     e = KeyError key /\ key <> "file" /\ key <> "none").
  { destruct (find_lrc_by_pattern metadata fs) as [[[|c u]|]|e'] eqn:Hp;
      cbn [bind]; try discriminate.
    - destruct (load_from_uri (String c u) fs) as [[lrc|]|e''] eqn:Hl;
        cbn [bind]; try discriminate.
      intros [= <-]. exact (Hload _ Hl).
    - intros [= <-]. left. exact (ensure_uri_scheme_raises _ _ Hp). }
  unfold GetRawLyrics.
  destruct (find_lrc_from_db self metadata) as [[[|c u]|]|e'] eqn:Hdb;
    cbn [bind]; [exact Hpat| |exact Hpat|].
  - destruct (String.eqb_spec (String c u) "none:") as [E|_];
      [discriminate|].
    destruct (load_from_uri (String c u) fs) as [[lrc|]|e''] eqn:Hl;
      cbn [bind]; [discriminate|exact Hpat|].
    intros [= <-]. exact (Hload _ Hl).
  - intros [= <-]. left. exact (find_lrc_from_db_raises _ _ _ Hdb).
Qed.

(** *** [AssignLyricFile] *)

(** [AssignLyricFile] records the URI as given, leaves the records of
    other tracks and the current track alone, and emits one
    [CurrentLyricsChanged] exactly when the metadata is the current
    track. *)
Lemma AssignLyricFile_effect (self : Service) (metadata : Metadata)
  (uri : string) :
  LrcDb.find (_db (AssignLyricFile self metadata uri)) metadata = Some uri
  /\ (forall m, Metadata_eqb m metadata = false ->
        LrcDb.find (_db (AssignLyricFile self metadata uri)) m
        = LrcDb.find (_db self) m)
  /\ _metadata (AssignLyricFile self metadata uri) = _metadata self
  /\ signals (AssignLyricFile self metadata uri)
     = if Metadata_eqb metadata (_metadata self)
       then S (signals self) else signals self.
Proof.
  unfold AssignLyricFile, assign_lrc_uri. simpl.
  destruct (Metadata_eqb metadata (_metadata self)); simpl;
    unfold LrcDb.find, LrcDb.assign; rewrite Metadata_eqb_refl;
    (repeat split; try reflexivity; intros m Hm; now rewrite Hm).
Qed.

(** Assigning the empty URI and asking again answers "no lyrics". *)
Theorem AssignLyricFile_empty_then_get (self : Service) (metadata : Metadata)
  (fs : FS) :
  GetRawLyrics (AssignLyricFile self metadata "") metadata fs
  = Ret (true, "none:", "").
Proof.
  unfold GetRawLyrics, find_lrc_from_db.
  now rewrite (proj1 (AssignLyricFile_effect self metadata "")).
Qed.

Lemma ensure_uri_scheme_valid (uri : string) (parts : ParseResult) :
  is_valid_uri uri = true ->
  urlparse uri = Ret parts ->
  ensure_uri_scheme (Some uri) = Ret (Some uri).
Proof.
  intros Hv Hp. destruct uri as [|c u]; [reflexivity|].
  unfold ensure_uri_scheme. rewrite Hp. cbn [bind].
  destruct (is_valid_uri_scheme _ _ Hv Hp) as [-> | ->]; reflexivity.
Qed.

(** A URI with a supported scheme that is assigned and loads is what
    [GetRawLyrics] then returns, with its content. *)
Theorem AssignLyricFile_then_get (self : Service) (metadata : Metadata)
  (uri lrc : string) (fs : FS) :
  is_valid_uri uri = true ->
  load_from_uri uri fs = Ret (Some lrc) ->
  GetRawLyrics (AssignLyricFile self metadata uri) metadata fs
  = Ret (true, uri, lrc).
Proof.
  intros Hv Hl.
  destruct (load_from_uri_parsed _ _ _ Hl) as (parts & Hp).
  apply (proj1 (GetRawLyrics_resolution _ metadata fs)); [| |exact Hl].
  - unfold find_lrc_from_db.
    rewrite (proj1 (AssignLyricFile_effect self metadata uri)).
    destruct uri as [|c u]; [discriminate Hv|].
    exact (ensure_uri_scheme_valid _ parts Hv Hp).
  - destruct (is_valid_uri_inv uri Hv) as (rest & [-> | ->]); discriminate.
Qed.

(** *** [SetLyricContent] *)

Lemma rstrip_nul_zeros (n : nat) : rstrip_nul (repeat x00 n) = [].
Proof. induction n as [|n IH]; simpl; [reflexivity|now rewrite IH]. Qed.

Lemma rstrip_nul_app (content zeros : list byte) :
  rstrip_nul zeros = [] ->
  rstrip_nul (content ++ zeros)%list = rstrip_nul content.
Proof.
  intros Hz. induction content as [|b rest IH]; simpl; [exact Hz|].
  now rewrite IH.
Qed.

(** Trailing NUL bytes of the content make no difference to
    [SetLyricContent]. *)
Theorem SetLyricContent_trailing_nul (self : Service) (metadata : Metadata)
  (content : list byte) (n : nat) (fs : FS) :
  SetLyricContent self metadata (content ++ repeat x00 n)%list fs
  = SetLyricContent self metadata content fs.
Proof.
  unfold SetLyricContent.
  now rewrite (rstrip_nul_app content _ (rstrip_nul_zeros n)).
Qed.

(** When [SetLyricContent] returns a URI, the content without its
    trailing NULs has been saved to a path the patterns form, the current
    track is as before, and one [CurrentLyricsChanged] has been emitted
    exactly when the metadata is the current track. *)
Theorem SetLyricContent_saved (self self' : Service) (metadata : Metadata)
  (content : list byte) (fs fs' : FS) (uri : string) :
  SetLyricContent self metadata content fs = (Ret uri, self', fs') ->
  uri <> "" ->
  (exists p fs0,
      candidate metadata p /\ uri = path2uri p
      /\ save_to_uri uri (rstrip_nul content) true fs0 = (Ret true, fs'))
  /\ _metadata self' = _metadata self
  /\ signals self'
     = if Metadata_eqb metadata (_metadata self)
       then S (signals self) else signals self.
Proof.
  unfold SetLyricContent.
  destruct (_save_to_patterns metadata (rstrip_nul content) fs)
    as [[u|e] f1] eqn:Hs; [|discriminate].
  intros [= -> <- <-] Hne. split.
  - apply save_to_patterns_from_cases in Hs as [Hs|Hs];
      [contradiction|exact Hs].
  - destruct uri as [|c u]; [contradiction|]. simpl.
    now destruct (Metadata_eqb metadata (_metadata self)).
Qed.

(** *** [SetOffset] *)

(** What the load of a valid URI raises is none of the exceptions of
    [SetOffset] and no [KeyError]. *)
Lemma valid_load_raises (uri : string) (fs : FS) (e : exn) :
  is_valid_uri uri = true -> load_from_uri uri fs = Raise e ->
  e = ValueError \/ e = TypeError \/ e = LookupError.
Proof.
  intros H Hl. apply load_from_uri_raises in Hl
    as [->|[->|[->|(parts & Hp & _ & Hf & Hn)]]]; auto.
  destruct (is_valid_uri_scheme uri parts H Hp); contradiction.
Qed.

Lemma valid_save_raises (uri : string) (content : list byte) (create : bool)
  (fs fs' : FS) (e : exn) :
  is_valid_uri uri = true ->
  save_to_uri uri content create fs = (Raise e, fs') ->
  e = ValueError \/ e = OSError.
Proof.
  intros H Hs. apply save_to_uri_raises in Hs
    as [->|[->|(parts & Hp & _ & Hf & Hn & _)]]; auto.
  destruct (is_valid_uri_scheme uri parts H Hp); contradiction.
Qed.

(** Each of the three exceptions of [SetOffset] is raised in one
    situation only: [InvalidUriException] on a URI that fails
    [is_valid_uri]; [CannotLoadLrcException] on a valid URI whose load
    returns [None]; [CannotSaveLrcException] on a valid URI that loads and
    whose save of the rewritten text returns [False]. *)
Theorem SetOffset_exceptions (uri : string) (offset_ms : Z) (fs : FS) :
  (fst (SetOffset uri offset_ms fs) = Raise (InvalidUriException uri)
   <-> is_valid_uri uri = false)
  /\ (fst (SetOffset uri offset_ms fs) = Raise (CannotLoadLrcException uri)
      <-> is_valid_uri uri = true /\ load_from_uri uri fs = Ret None)
  /\ (fst (SetOffset uri offset_ms fs) = Raise (CannotSaveLrcException uri)
      <-> is_valid_uri uri = true
          /\ exists content fs',
              load_from_uri uri fs = Ret (Some content)
              /\ save_to_uri uri
                   (encode_utf8 (update_lrc_offset content offset_ms))
                   true fs = (Ret false, fs')).
Proof.
  destruct (is_valid_uri uri) eqn:Hv.
  - destruct (load_from_uri uri fs) as [[content|]|e] eqn:Hl.
    + rewrite (SetOffset_loaded uri offset_ms fs content Hv Hl).
      destruct (save_to_uri uri _ true fs) as [[[]|e] fs'] eqn:Hs; simpl.
      * split; [split; discriminate|].
        split; [split; [discriminate|intros (_ & [=])]|].
        split; [discriminate|].
        intros (_ & c & f & [= <-] & H). rewrite Hs in H. discriminate.
      * split; [split; discriminate|].
        split; [split; [discriminate|intros (_ & [=])]|].
        split; [intros _; split; [reflexivity|]; now exists content, fs'|].
        reflexivity.
      * destruct (valid_save_raises _ _ _ _ _ _ Hv Hs) as [-> | ->];
          (split; [split; discriminate|];
           split; [split; [discriminate|intros (_ & [=])]|];
           split; [discriminate|];
           intros (_ & c & f & [= <-] & H); rewrite Hs in H; discriminate).
    + rewrite (SetOffset_cannot_load uri offset_ms fs Hv Hl). simpl.
      split; [split; discriminate|]. split; [tauto|].
      split; [discriminate|intros (_ & c & f & [=] & _)].
    + rewrite (SetOffset_load_raises uri offset_ms fs e Hv Hl). simpl.
      destruct (valid_load_raises uri fs e Hv Hl) as [-> | [-> | ->]];
        (split; [split; discriminate|];
         split; [split; [discriminate|intros (_ & [=])]|];
         split; [discriminate|intros (_ & c & f & [=] & _)]).
  - rewrite (SetOffset_invalid uri offset_ms fs Hv). simpl.
    split; [tauto|]. split; split; try discriminate; intros ([=] & _).
Qed.

(** Whatever [SetOffset] raises is never a [KeyError]: it is one of its
    three exceptions, the [TypeError] or the [LookupError] of the decoder,
    the [ValueError] of [urlparse] or of a path with a NUL, or the
    [OSError] of the write.  Unless the save was reached, the filesystem
    is as before. *)
Theorem SetOffset_raises (uri : string) (offset_ms : Z) (fs fs' : FS)
  (e : exn) :
  SetOffset uri offset_ms fs = (Raise e, fs') ->
  (e = InvalidUriException uri \/ e = CannotLoadLrcException uri
   \/ e = CannotSaveLrcException uri \/ e = TypeError \/ e = LookupError
   \/ e = ValueError \/ e = OSError)
  /\ (e = InvalidUriException uri \/ e = CannotLoadLrcException uri
      \/ e = TypeError \/ e = LookupError -> fs' = fs).
Proof.
  destruct (is_valid_uri uri) eqn:Hv.
  - destruct (load_from_uri uri fs) as [[content|]|e'] eqn:Hl.
    + rewrite (SetOffset_loaded uri offset_ms fs content Hv Hl).
      destruct (save_to_uri uri _ true fs) as [[[]|e'] f1] eqn:Hs;
        [discriminate| |].
      * intros [= <- <-]. split; [auto|].
        intros [[=]|[[=]|[[=]|[=]]]].
      * intros [= <- <-].
        destruct (valid_save_raises _ _ _ _ _ _ Hv Hs) as [-> | ->];
          (split; [auto 8|]; intros [[=]|[[=]|[[=]|[=]]]]).
    + rewrite (SetOffset_cannot_load uri offset_ms fs Hv Hl).
      intros [= <- <-]. auto.
    + rewrite (SetOffset_load_raises uri offset_ms fs e' Hv Hl).
      intros [= <- <-].
      destruct (valid_load_raises uri fs e' Hv Hl) as [-> | [-> | ->]];
        auto 8.
  - rewrite (SetOffset_invalid uri offset_ms fs Hv). intros [= <- <-]. auto.
Qed.

End WithPlatform.

#[local] Existing Instance Demo.platform.

Lemma expand_patterns_found_witness :
  _expand_patterns Demo.song Demo.disk
  = Some "/home/user/.lyrics/Band-Song.lrc"
  /\ candidate Demo.song "/home/user/.lyrics/Band-Song.lrc"
  /\ fs_isfile "/home/user/.lyrics/Band-Song.lrc" Demo.disk = true.
Proof.
  split; [reflexivity|].
  exact (expand_patterns_found Demo.song Demo.disk _ eq_refl).
Defined.

Lemma save_to_patterns_saved_witness :
  let uri := "file:///home/user/.lyrics/Band-Song.lrc" in
  let path := "/home/user/.lyrics/Band-Song.lrc" in
  let fs' := Demo.put path [x61] (Demo.put path [] Demo.disk) in
  _save_to_patterns Demo.song [x61] Demo.disk = (Ret uri, fs')
  /\ uri <> ""
  /\ exists p fs0,
      candidate Demo.song p /\ uri = path2uri p
      /\ save_to_uri uri [x61] true fs0 = (Ret true, fs').
Proof.
  intros uri path fs'.
  assert (Hs : _save_to_patterns Demo.song [x61] Demo.disk = (Ret uri, fs'))
    by reflexivity.
  assert (Hne : uri <> "") by discriminate.
  split; [exact Hs|]. split; [exact Hne|].
  exact (save_to_patterns_saved Demo.song [x61] Demo.disk fs' uri Hs Hne).
Defined.

(** A track with a relative location makes the pattern [%] expand to a
    relative directory; [path2uri] returns the candidate unconverted and
    [save_to_uri] finds no handler for its empty scheme. *)
Lemma save_to_patterns_raises_witness :
  _save_to_patterns DemoMore.relative_track [x61] Demo.frozen_disk
  = (Raise (KeyError ""), Demo.frozen_disk)
  /\ exists p fs0,
      candidate DemoMore.relative_track p
      /\ save_to_uri (path2uri p) [x61] true fs0
         = (Raise (KeyError ""), Demo.frozen_disk).
Proof.
  assert (Hs : _save_to_patterns DemoMore.relative_track [x61]
                 Demo.frozen_disk
               = (Raise (KeyError ""), Demo.frozen_disk)) by reflexivity.
  split; [exact Hs|].
  exact (save_to_patterns_raises DemoMore.relative_track [x61]
           Demo.frozen_disk Demo.frozen_disk (KeyError "") Hs).
Defined.

Lemma unknown_track_no_candidate :
  forall p, ~ candidate DemoMore.unknown_track p.
Proof.
  intros p (a & b & c & d & _ & Hb & _ & Hd & _).
  destruct Hb as [<-|[<-|[<-|[<-|[]]]]]; discriminate Hd.
Qed.

Lemma save_to_patterns_no_candidate_witness :
  (forall p, ~ candidate DemoMore.unknown_track p)
  /\ _save_to_patterns DemoMore.unknown_track [x61] Demo.disk
     = (Ret "", Demo.disk).
Proof.
  split; [exact unknown_track_no_candidate|].
  exact (save_to_patterns_no_candidate DemoMore.unknown_track [x61]
           Demo.disk unknown_track_no_candidate).
Defined.

Lemma GetRawLyrics_result_witness :
  GetRawLyrics Demo.stale_service Demo.song Demo.disk
  = Ret (true, "file:///home/user/.lyrics/Band-Song.lrc", "[ti:Song]")
  /\ "file:///home/user/.lyrics/Band-Song.lrc" <> ""
  /\ mem nul "[ti:Song]" = false.
Proof.
  assert (H : GetRawLyrics Demo.stale_service Demo.song Demo.disk
              = Ret (true, "file:///home/user/.lyrics/Band-Song.lrc",
                     "[ti:Song]")) by reflexivity.
  split; [exact H|].
  exact (proj2 (GetRawLyrics_result Demo.stale_service Demo.song Demo.disk
                  _ _ _ H) eq_refl).
Defined.

Lemma GetRawLyrics_marked_absent_witness :
  LrcDb.find (_db DemoMore.absent_service) Demo.song = Some ""
  /\ fs_isfile "/home/user/.lyrics/Band-Song.lrc" Demo.disk = true
  /\ GetRawLyrics DemoMore.absent_service Demo.song Demo.disk
     = Ret (true, "none:", "").
Proof.
  split; [reflexivity|]. split; [reflexivity|].
  exact (GetRawLyrics_marked_absent DemoMore.absent_service Demo.song
           eq_refl Demo.disk).
Defined.

(** A record that [urlparse] rejects makes [GetRawLyrics] raise
    [ValueError] before it looks at any file. *)
Lemma GetRawLyrics_raises_witness :
  GetRawLyrics DemoMore.bracket_service Demo.song Demo.disk
  = Raise ValueError
  /\ (ValueError = ValueError \/ ValueError = TypeError
      \/ ValueError = LookupError
      \/ exists key,
          ValueError = KeyError key /\ key <> "file" /\ key <> "none").
Proof.
  assert (H : GetRawLyrics DemoMore.bracket_service Demo.song Demo.disk
              = Raise ValueError) by reflexivity.
  split; [exact H|].
  exact (GetRawLyrics_raises DemoMore.bracket_service Demo.song Demo.disk _
           H).
Defined.

(** The other exceptions of [GetRawLyrics], on the example platform. *)
Example GetRawLyrics_raises_examples :
  GetRawLyrics Demo.raw_service Demo.song Demo.raw_disk = Raise TypeError
  /\ GetRawLyrics DemoMore.bom_service Demo.song DemoMore.bom_disk
     = Raise LookupError
  /\ GetRawLyrics DemoMore.http_service Demo.song Demo.disk
     = Raise (KeyError "http").
Proof. repeat split. Qed.

Lemma AssignLyricFile_then_get_witness :
  let uri := "file:///home/user/.lyrics/Band-Song.lrc" in
  is_valid_uri uri = true
  /\ load_from_uri uri Demo.disk = Ret (Some "[ti:Song]")
  /\ GetRawLyrics (AssignLyricFile Demo.stale_service Demo.song uri)
       Demo.song Demo.disk
     = Ret (true, uri, "[ti:Song]").
Proof.
  intros uri.
  assert (Hv : is_valid_uri uri = true) by reflexivity.
  assert (Hl : load_from_uri uri Demo.disk = Ret (Some "[ti:Song]"))
    by reflexivity.
  split; [exact Hv|]. split; [exact Hl|].
  exact (AssignLyricFile_then_get Demo.stale_service Demo.song uri
           "[ti:Song]" Demo.disk Hv Hl).
Defined.

Lemma SetLyricContent_saved_witness :
  let uri := "file:///home/user/.lyrics/Band-Song.lrc" in
  let path := "/home/user/.lyrics/Band-Song.lrc" in
  let fs' := Demo.put path [x61] (Demo.put path [] Demo.disk) in
  let self' :=
    {| _db := LrcDb.delete (_db Demo.stale_service) Demo.song;
       _metadata := Demo.song; signals := 1 |} in
  SetLyricContent Demo.stale_service Demo.song [x61; x00] Demo.disk
  = (Ret uri, self', fs')
  /\ uri <> ""
  /\ signals self' = 1.
Proof.
  intros uri path fs' self'.
  assert (H : SetLyricContent Demo.stale_service Demo.song [x61; x00]
                Demo.disk = (Ret uri, self', fs')) by reflexivity.
  assert (Hne : uri <> "") by discriminate.
  split; [exact H|]. split; [exact Hne|].
  exact (proj2 (proj2 (SetLyricContent_saved Demo.stale_service self'
                         Demo.song [x61; x00] Demo.disk fs' uri H Hne))).
Defined.

(** On a full disk the file is opened, and so emptied, before the write
    fails: the [OSError] of the write escapes [SetOffset]. *)
Lemma SetOffset_raises_witness :
  let uri := "file:///home/user/.lyrics/Band-Song.lrc" in
  let fs' := Demo.put "/home/user/.lyrics/Band-Song.lrc" [] Demo.full_disk in
  SetOffset uri 100 Demo.full_disk = (Raise OSError, fs')
  /\ (OSError = InvalidUriException uri \/ OSError = CannotLoadLrcException uri
      \/ OSError = CannotSaveLrcException uri \/ OSError = TypeError
      \/ OSError = LookupError \/ OSError = ValueError \/ OSError = OSError).
Proof.
  intros uri fs'.
  assert (H : SetOffset uri 100 Demo.full_disk = (Raise OSError, fs'))
    by reflexivity.
  split; [exact H|].
  exact (proj1 (SetOffset_raises uri 100 Demo.full_disk fs' OSError H)).
Defined.

End ServiceMore.

(** ** More on paths and URIs *)

Module UtilsMore.
Import PyStr PyStrFacts OsPath Urllib Utils UtilsFiles Lyrics.
Import GatewayFacts UtilsFacts.

Section WithPlatform.
Context {P : Platform}.

Lemma rstrip_head (c a : ascii) (s : string) :
  rstrip c (String a s) = "" \/ exists r, rstrip c (String a s) = String a r.
Proof.
  simpl. destruct (rstrip c s) as [|b r].
  - destruct (a =? c)%char; [now left|right; now exists ""].
  - right. now exists (String b r).
Qed.

Lemma split_user_rest (tail name rest : string) :
  split_user tail = (name, rest) -> rest = "" \/ isabs rest = true.
Proof.
  revert name. induction tail as [|c t IH]; simpl; intros name.
  - intros [= _ <-]. now left.
  - destruct (Ascii.eqb_spec c "/") as [->|_].
    + intros [= _ <-]. now right.
    + destruct (split_user t) as [n r]. intros [= _ <-]. exact (IH n eq_refl).
Qed.

(** With absolute homes, [expanduser] either leaves the path as it is or
    returns an absolute path. *)
Lemma expanduser_cases (path : string) :
  absolute_homes -> expanduser path = path \/ isabs (expanduser path) = true.
Proof.
  intros Hh. destruct path as [|c tail]; [now left|].
  unfold expanduser. destruct (c =? "~")%char; [|now left].
  destruct (split_user tail) as [name rest] eqn:Hs.
  destruct (userhome name) as [home|] eqn:Hu; [|now left].
  right. apply Hh in Hu.
  destruct home as [|h home]; [discriminate|].
  destruct (rstrip_head "/" h home) as [-> | [r ->]].
  - simpl. destruct (split_user_rest _ _ _ Hs) as [-> | Hr]; [reflexivity|].
    now destruct rest.
  - unfold isabs, startswith in Hu. cbn [strip_prefix] in Hu.
    destruct (Ascii.eqb_spec "/" h) as [<-|]; [reflexivity|discriminate].
Qed.

(** With absolute homes, [path2uri] applied to its own result changes
    nothing. *)
Theorem path2uri_idem (path : string) :
  absolute_homes -> path2uri (path2uri path) = path2uri path.
Proof.
  intros Hh. destruct (isabs (expanduser path)) eqn:Ha.
  - assert (E : path2uri path = "file://" ++ pathname2url (expanduser path))
      by (unfold path2uri; now rewrite Ha).
    rewrite E. reflexivity.
  - destruct (expanduser_cases path Hh) as [Hx|Hx]; [|congruence].
    assert (E : path2uri path = path)
      by (unfold path2uri; now rewrite Ha).
    now rewrite !E.
Qed.

Lemma path2uri_absolute (path : string) :
  isabs path = true -> path2uri path = "file://" ++ pathname2url path.
Proof.
  intros Ha. unfold path2uri.
  rewrite (expanduser_no_tilde path (isabs_no_tilde path Ha)).
  now rewrite Ha.
Qed.

(** The URI [path2uri] makes of a path whose expansion is absolute passes
    [is_valid_uri] and, when [urlparse] accepts it, is dispatched to the
    [file] handlers. *)
Lemma path2uri_valid (path : string) :
  isabs (expanduser path) = true ->
  is_valid_uri (path2uri path) = true
  /\ forall parts,
      urlparse (path2uri path) = Ret parts -> scheme parts = "file".
Proof.
  intros Ha. unfold path2uri. rewrite Ha. simpl negb. cbv iota.
  split; [reflexivity|].
  intros parts. exact (scheme_file ("//" ++ pathname2url (expanduser path)) _).
Qed.

Lemma split_first_head (seps : string) (c c0 d : ascii) (t h r : string) :
  split_first seps (String c t) = Some (String c0 h, d, r) -> c0 = c.
Proof.
  simpl. destruct (mem c seps); [discriminate|].
  destruct (split_first seps t) as [[[a x] b]|]; [|discriminate].
  now intros [= <- _ _ _].
Qed.

(** An absolute path has no scheme. *)
Lemma scheme_of_absolute (path : string) (parts : ParseResult) :
  isabs path = true -> urlparse path = Ret parts -> scheme parts = "".
Proof.
  intros Ha Hp. rewrite (urlparse_scheme _ _ Hp).
  destruct path as [|c t]; [discriminate|].
  unfold isabs, startswith in Ha. cbn [strip_prefix] in Ha.
  destruct (Ascii.eqb_spec "/" c) as [<-|]; [|discriminate].
  change (remove_unsafe (lstrip_c0 (String "/" t)))
    with (String "/" (remove_unsafe t)).
  unfold split_scheme.
  destruct (split_first ":" (String "/" (remove_unsafe t)))
    as [[[[|c0 h] d] r]|] eqn:E; try reflexivity.
  apply split_first_head in E as ->. reflexivity.
Qed.

(** A URL without a network location is one [urlsplit] accepts. *)
Lemma urlsplit_no_netloc (url : string) :
  fst (split_netloc (snd (split_scheme (remove_unsafe (lstrip_c0 url))))) = ""
  -> exists parts, urlsplit url = Ret parts.
Proof.
  unfold urlsplit.
  destruct (split_scheme (remove_unsafe (lstrip_c0 url))) as [sch u].
  cbn [snd]. destruct (split_netloc u) as [net u']. cbn [fst].
  intros ->. cbn [unbalanced_brackets mem andb orb negb bind].
  unfold _checknetloc. cbn [String.eqb orb bind].
  destruct (split_first "#" u') as [[[x d] y]|];
    [destruct (split_first "?" x) as [[[? ?] ?]|]
    |destruct (split_first "?" u') as [[[? ?] ?]|]]; eauto.
Qed.

(** The [file:] URL of an absolute path is one [urlparse] accepts. *)
Lemma urlparse_file_url (q : string) :
  isabs q = true ->
  exists parts, urlparse ("file://" ++ q) = Ret parts /\ scheme parts = "file".
Proof.
  intros Ha. destruct q as [|c q']; [discriminate|].
  unfold isabs, startswith in Ha. cbn [strip_prefix] in Ha.
  destruct (Ascii.eqb_spec "/" c) as [<-|]; [|discriminate].
  destruct (urlsplit_no_netloc ("file://" ++ String "/" q') eq_refl)
    as (r & Hr).
  pose proof (urlsplit_scheme _ _ Hr) as Hs.
  change (fst (split_scheme
                 (remove_unsafe (lstrip_c0 ("file://" ++ String "/" q')))))
    with "file" in Hs.
  exists r. split; [|exact Hs].
  unfold urlparse. rewrite Hr. cbn [bind]. rewrite Hs. reflexivity.
Qed.

(** [ensure_uri_scheme] leaves [None], the empty string and every URI
    with a scheme as they are, and turns an absolute path into its [file:]
    URI. *)
Lemma ensure_uri_scheme_cases :
  ensure_uri_scheme None = Ret None
  /\ ensure_uri_scheme (Some "") = Ret (Some "")
  /\ (forall uri parts,
        urlparse uri = Ret parts -> scheme parts <> "" ->
        ensure_uri_scheme (Some uri) = Ret (Some uri))
  /\ (forall path parts,
        isabs path = true -> urlparse path = Ret parts ->
        ensure_uri_scheme (Some path)
        = Ret (Some ("file://" ++ pathname2url path))).
Proof.
  repeat split.
  - intros [|c u] parts Hp H; [reflexivity|]. unfold ensure_uri_scheme.
    rewrite Hp. cbn [bind].
    destruct (String.eqb_spec (scheme parts) "");
      [contradiction|reflexivity].
  - intros [|c u] parts Ha Hp; [discriminate|]. unfold ensure_uri_scheme.
    rewrite Hp. cbn [bind]. rewrite (scheme_of_absolute _ _ Ha Hp).
    simpl String.eqb. cbv iota.
    do 2 f_equal. exact (path2uri_absolute _ Ha).
Qed.

(** With absolute homes and a quoting that keeps the leading slash, what
    [ensure_uri_scheme] returns is a fixed point: applied to its own
    result it returns it again. *)
Theorem ensure_uri_scheme_idem (uri fixed : option string) :
  absolute_homes -> absolute_urls ->
  ensure_uri_scheme uri = Ret fixed ->
  ensure_uri_scheme fixed = Ret fixed.
Proof.
  intros Hh Hq. destruct uri as [[|c u]|]; try (now intros [= <-]).
  assert (HV : ensure_uri_scheme (Some (String c u))
               = (url_parts <- urlparse (String c u) ;;
                  if (scheme url_parts =? "")%string
                  then Ret (Some (path2uri (String c u)))
                  else Ret (Some (String c u)))) by reflexivity.
  rewrite HV.
  destruct (urlparse (String c u)) as [parts|e] eqn:Hp; [|discriminate].
  cbn [bind].
  destruct (String.eqb_spec (scheme parts) "") as [E|E].
  - intros [= <-].
    destruct (isabs (expanduser (String c u))) eqn:Ha.
    + assert (Hx : path2uri (String c u)
                   = "file://" ++ pathname2url (expanduser (String c u)))
        by (unfold path2uri; now rewrite Ha).
      rewrite Hx.
      destruct (urlparse_file_url _ (Hq _ Ha)) as (parts' & Hp' & Hs').
      apply (proj1 (proj2 (proj2 ensure_uri_scheme_cases)) _ parts' Hp').
      rewrite Hs'. discriminate.
    + destruct (expanduser_cases (String c u) Hh) as [Hx|Hx]; [|congruence].
      assert (Hpath : path2uri (String c u) = String c u)
        by (unfold path2uri; now rewrite Ha).
      rewrite Hpath, HV. cbn [bind]. rewrite E. cbn [String.eqb].
      now rewrite Hpath.
  - intros [= <-].
    exact (proj1 (proj2 (proj2 ensure_uri_scheme_cases)) _ parts Hp E).
Qed.

(** *** [get_config_path] *)

(** An absolute file name is returned as it is, outside the configuration
    directory; any other name is appended to [~/.config/osdlyrics/], and
    with [expanduser] the [~] is replaced by the home of the current
    user. *)
Theorem get_config_path_cases (filename : string) :
  (isabs filename = true ->
   forall expand, get_config_path filename expand = filename)
  /\ (isabs filename = false ->
      get_config_path filename false = "~/.config/osdlyrics/" ++ filename)
  /\ (isabs filename = false ->
      forall home,
        userhome "" = Some home -> rstrip "/" home <> "" ->
        get_config_path filename true
        = rstrip "/" home ++ "/.config/osdlyrics/" ++ filename).
Proof.
  unfold get_config_path, join, isabs. repeat split.
  - intros Ha expand. rewrite Ha. destruct expand; [|reflexivity].
    apply expanduser_no_tilde. now apply isabs_no_tilde.
  - now intros ->.
  - intros Ha home Hu Hne. rewrite Ha. simpl. unfold expanduser.
    simpl. rewrite Hu.
    destruct (rstrip "/" home) as [|c r]; [contradiction|reflexivity].
Qed.

(** *** [find_file_in_dirs] and [cmd_exists] *)

Lemma find_file_in_dirs_members (filename : string) (dirs : list string)
  (filter_func : option (string -> bool)) (fs : FS) (p : string) :
  In p (find_file_in_dirs filename dirs filter_func fs)
  <-> exists dir,
      In dir dirs /\ p = join dir filename
      /\ fs_isfile p fs = true /\ accepts filter_func p = true.
Proof.
  induction dirs as [|d rest IH]; simpl.
  - split; [contradiction|]. now intros (dir & [] & _).
  - fold (accepts filter_func (join d filename)).
    destruct (fs_isfile (join d filename) fs
              && accepts filter_func (join d filename)) eqn:E.
    + apply andb_prop in E as (Hf & Hacc). simpl. rewrite IH. split.
      * intros [<-|(dir & Hin & H)]; [exists d; auto|exists dir; auto].
      * intros (dir & [<-|Hin] & -> & H); [now left|].
        right. exists dir. auto.
    + rewrite IH. split.
      * intros (dir & Hin & H). exists dir. auto.
      * intros (dir & [<-|Hin] & -> & Hf & Hacc).
        -- rewrite Hf, Hacc in E. discriminate.
        -- exists dir. auto.
Qed.

(** The paths [find_file_in_dirs] returns are exactly the joins of a
    listed directory with the file name that are files and pass the
    filter. *)
Theorem find_file_in_dirs_In (filename : string) (dirs : list string)
  (filter_func : option (string -> bool)) (fs : FS) (p : string) :
  In p (find_file_in_dirs filename dirs filter_func fs)
  <-> exists dir,
      In dir dirs /\ p = join dir filename
      /\ fs_isfile p fs = true /\ accepts filter_func p = true.
Proof. apply find_file_in_dirs_members. Qed.

(** An absolute file name is looked up on its own, whatever the
    directories are, and is reported once for each of them. *)
Theorem find_file_in_dirs_absolute (filename : string) (dirs : list string)
  (filter_func : option (string -> bool)) (fs : FS) :
  isabs filename = true ->
  find_file_in_dirs filename dirs filter_func fs
  = if fs_isfile filename fs && accepts filter_func filename
    then repeat filename (List.length dirs) else [].
Proof.
  intros Ha. induction dirs as [|d rest IH]; simpl.
  - now destruct (_ && _).
  - assert (Hj : join d filename = filename)
      by (unfold join; unfold isabs in Ha; now rewrite Ha).
    rewrite Hj, IH. fold (accepts filter_func filename).
    now destruct (fs_isfile filename fs && accepts filter_func filename).
Qed.

(** [cmd_exists] raises [KeyError] exactly when [PATH] is unset, and
    otherwise answers whether some entry of [PATH], joined with the
    command, is a file that [is_exec_file] accepts. *)
Theorem cmd_exists_cases (proc : Process) (cmd : string) (fs : FS) :
  (forall e, cmd_exists proc cmd fs = Raise e
             <-> environ proc "PATH" = None /\ e = KeyError "PATH")
  /\ (cmd_exists proc cmd fs = Ret true
      <-> exists path_var dir,
          environ proc "PATH" = Some path_var
          /\ In dir (split ":" path_var)
          /\ fs_isfile (join dir cmd) fs = true
          /\ is_exec_file proc (join dir cmd) = true).
Proof.
  unfold cmd_exists. destruct (environ proc "PATH") as [pv|].
  - split; [intros e; split; [discriminate|intros ([=] & _)]|].
    set (l := find_file_in_dirs cmd (split ":" pv)
                (Some (is_exec_file proc)) fs).
    assert (Hl : forall p, In p l <->
                   exists dir, In dir (split ":" pv) /\ p = join dir cmd
                     /\ fs_isfile p fs = true
                     /\ is_exec_file proc p = true)
      by (intros p; apply find_file_in_dirs_members).
    split.
    + intros [= H]. apply Nat.ltb_lt in H.
      destruct l as [|p l']; [simpl in H; lia|].
      destruct (proj1 (Hl p) (or_introl eq_refl)) as (dir & Hin & -> & H1 & H2).
      now exists pv, dir.
    + intros (pv' & dir & [= <-] & Hin & H1 & H2).
      assert (Hp : In (join dir cmd) l) by (apply Hl; exists dir; auto).
      destruct l; [contradiction|reflexivity].
  - split.
    + intros e. split; [intros [= <-]; auto|intros (_ & ->); reflexivity].
    + split; [discriminate|intros (pv & dir & [=] & _)].
Qed.

End WithPlatform.

#[local] Existing Instance Demo.platform.

Lemma demo_absolute_homes : absolute_homes.
Proof.
  intros name home. simpl. unfold Demo.home.
  destruct (name =? "")%string; [|discriminate].
  now intros [= <-].
Qed.

Lemma path2uri_idem_witness :
  absolute_homes
  /\ path2uri (path2uri "~/x.lrc") = path2uri "~/x.lrc".
Proof.
  split; [exact demo_absolute_homes|].
  exact (path2uri_idem "~/x.lrc" demo_absolute_homes).
Defined.

Lemma demo_absolute_urls : absolute_urls.
Proof.
  intros [|c t] Ha; [discriminate|].
  unfold isabs, startswith in Ha. cbn [strip_prefix] in Ha.
  destruct (Ascii.eqb_spec "/" c) as [<-|]; [reflexivity|discriminate].
Qed.

Lemma ensure_uri_scheme_idem_witness :
  absolute_homes /\ absolute_urls
  /\ ensure_uri_scheme (Some "/home/user/a b.lrc")
     = Ret (Some "file:///home/user/a%20b.lrc")
  /\ ensure_uri_scheme (Some "file:///home/user/a%20b.lrc")
     = Ret (Some "file:///home/user/a%20b.lrc").
Proof.
  assert (H : ensure_uri_scheme (Some "/home/user/a b.lrc")
              = Ret (Some "file:///home/user/a%20b.lrc")) by reflexivity.
  split; [exact demo_absolute_homes|]. split; [exact demo_absolute_urls|].
  split; [exact H|].
  exact (ensure_uri_scheme_idem (Some "/home/user/a b.lrc") _
           demo_absolute_homes demo_absolute_urls H).
Defined.

Lemma find_file_in_dirs_absolute_witness :
  isabs "/home/user/.lyrics/Band-Song.lrc" = true
  /\ find_file_in_dirs "/home/user/.lyrics/Band-Song.lrc" ["/usr/bin"; "/bin"]
       None Demo.disk
     = ["/home/user/.lyrics/Band-Song.lrc";
        "/home/user/.lyrics/Band-Song.lrc"].
Proof.
  split; [reflexivity|].
  exact (find_file_in_dirs_absolute "/home/user/.lyrics/Band-Song.lrc"
           ["/usr/bin"; "/bin"] None Demo.disk eq_refl).
Defined.

(** [get_config_path] and [cmd_exists] on the example platform. *)
Example get_config_path_doctests :
  get_config_path "" false = "~/.config/osdlyrics/"
  /\ get_config_path "osdlyrics.conf" false
     = "~/.config/osdlyrics/osdlyrics.conf"
  /\ get_config_path "osdlyrics.conf" true
     = "/home/user/.config/osdlyrics/osdlyrics.conf".
Proof. repeat split. Qed.

Example cmd_exists_example :
  cmd_exists demo_process "Band-Song.lrc" Demo.disk = Ret true
  /\ cmd_exists demo_process "ls" Demo.disk = Ret false.
Proof. split; reflexivity. Qed.

End UtilsMore.
